(** * Slack channel resolution and notification-setting coordinates

    A shallow embedding of
      - [src/sentry/integrations/slack/utils.py]: [strip_channel_name],
        [get_channel_id], [get_channel_id_with_timeout], [parse_link], the
        message builders and [send_incident_alert_notification];
      - [src/sentry/notifications/manager.py]: [_get_scope], [_get_target],
        [get_settings], [update_settings] and [remove_settings].

    Python values are modelled as follows.  Strings are [string]; the
    builtin [str.lower] is a parameter of the development.  [time.time()]
    readings are rationals.  The Slack client, the clock and the logger are
    an explicit environment and an explicit world state that is threaded
    through the code; [while True] is a fuelled loop.  In the alert
    notification and in the manager, what the two files import from
    elsewhere is a parameter, and a call into it may raise. *)

From Stdlib Require Import String Ascii List Bool Arith ZArith QArith Lia.
From Stdlib Require Import DecimalString DecimalZ Sorted Permutation.
Import ListNotations.

Close Scope Q_scope.
Local Open Scope string_scope.
Local Open Scope list_scope.

(** ** Python exceptions and results *)

Inductive Exn : Type :=
| ApiError (msg : string)
| DuplicateDisplayNameError (name : string)
| DoesNotExist
| UnboundLocalError (var : string)
| Exception (msg : string).

(** The result of a call: a returned value or a raised exception. *)
Inductive Res (A : Type) : Type :=
| Return (a : A)
| Raise (e : Exn).
Arguments Return {A} a.
Arguments Raise {A} e.

Module Slack.

(** ** Constants of [utils.py] *)

Definition MEMBER_PREFIX : string := "@".
Definition CHANNEL_PREFIX : string := "#".
Definition strip_channel_chars : string := MEMBER_PREFIX ++ CHANNEL_PREFIX.
Definition SLACK_DEFAULT_TIMEOUT : Q := 10%Q.

(** [(<list_name>, <result_name>, <prefix>)] *)
Definition ListType : Type := (string * string * string)%type.

Definition LIST_TYPES : list ListType :=
  [("conversations", "channels", CHANNEL_PREFIX); ("users", "members", MEMBER_PREFIX)].

(** ** Strings *)

Fixpoint mem_char (a : ascii) (chars : string) : bool :=
  match chars with
  | EmptyString => false
  | String b rest => if Ascii.eqb a b then true else mem_char a rest
  end.

(** Python's [s.lstrip(chars)]: drop the leading characters that occur in
    [chars]. *)
Fixpoint lstrip (chars s : string) : string :=
  match s with
  | EmptyString => EmptyString
  | String a rest => if mem_char a chars then lstrip chars rest else s
  end.

(** Every character of [s] occurs in [chars]. *)
Fixpoint all_in (chars s : string) : bool :=
  match s with
  | EmptyString => true
  | String a rest => andb (mem_char a chars) (all_in chars rest)
  end.

Definition strip_channel_name (name : string) : string :=
  lstrip strip_channel_chars name.

(** ASCII lower-casing, the instance of [str.lower] used in the examples. *)
Definition ascii_lower_char (a : ascii) : ascii :=
  let n := nat_of_ascii a in
  if andb (Nat.leb 65 n) (Nat.leb n 90) then ascii_of_nat (n + 32)%nat else a.

Fixpoint ascii_lower (s : string) : string :=
  match s with
  | EmptyString => EmptyString
  | String a rest => String (ascii_lower_char a) (ascii_lower rest)
  end.

(** ** Pages of the Slack list endpoints *)

(** [c["profile"]]: the only key read is ["display_name"].  An empty
    dictionary is falsy in Python and has no display name, so it behaves as
    a profile whose [display_name] is [None]. *)
Record Profile : Type := { display_name : option string }.

(** One element [c] of [items[result_name]]: [c["name"]], [c["id"]] and
    [c.get("profile")]. *)
Record Item : Type := {
  item_name : string;
  item_id : string;
  profile : option Profile
}.

(** The parsed reply of [client.get]: the item list stored under the result
    key of the list type, and
    [items.get("response_metadata", {}).get("next_cursor", None)]. *)
Record Page : Type := {
  results : list Item;
  next_cursor : option string
}.

(** [params=dict(payload, cursor=cursor, limit=1000)] sent to [endpoint];
    the headers and the rest of the payload are the same in every call. *)
Record Request : Type := {
  endpoint : string;
  cursor : string;
  limit : Z
}.

(** ** Environment and world *)

(** What the outside does: the [n]-th reading of [time.time()], and the
    reply to the [n]-th call of [client.get], which either raises
    [ApiError] (left, with [str(e)]) or returns a page. *)
Record Env : Type := {
  time_time : nat -> Q;
  client_get : nat -> Request -> string + Page
}.

(** What the code has done so far: the number of clock readings, the
    requests sent (oldest first) and the records logged (oldest first, as
    message and ["error"] extra). *)
Record World : Type := {
  clock_reads : nat;
  requests : list Request;
  logged : list (string * string)
}.

Definition fresh : World :=
  {| clock_reads := 0; requests := []; logged := [] |}.

Definition read_clock (env : Env) (w : World) : Q * World :=
  (time_time env (clock_reads w),
   {| clock_reads := S (clock_reads w); requests := requests w; logged := logged w |}).

Definition call_get (env : Env) (req : Request) (w : World) : (string + Page) * World :=
  (client_get env (length (requests w)) req,
   {| clock_reads := clock_reads w; requests := requests w ++ [req]; logged := logged w |}).

Definition logger_info (msg error : string) (w : World) : World :=
  {| clock_reads := clock_reads w; requests := requests w;
     logged := logged w ++ [(msg, error)] |}.

(** [a > b] on clock readings. *)
Definition Qgtb (a b : Q) : bool := negb (Qle_bool a b).

(** ** [get_channel_id_with_timeout] *)

(** The returned tuple [(prefix, channel_id, timed_out)]. *)
Definition Tuple : Type := (string * option string * bool)%type.

(** The two locals that live across pages and list types. *)
Record Locals : Type := {
  id_data : option Tuple;
  found_duplicate : bool
}.

Definition init_locals : Locals := {| id_data := None; found_duplicate := false |}.

(** Python truthiness of a cursor: [None] and [""] are falsy. *)
Definition truthy (c : option string) : bool :=
  match c with
  | None => false
  | Some s => negb (String.eqb s "")
  end.

Definition cursor_value (c : option string) : string :=
  match c with
  | None => ""
  | Some s => s
  end.

(** A tuple that reports a timeout carries no id. *)
Definition well_shaped (t : Tuple) : Prop :=
  snd t = true -> snd (fst t) = None.

(** A recorded candidate is never a timeout. *)
Definition candidate_shaped (l : Locals) : Prop :=
  forall t, id_data l = Some t -> snd t = false.

(** How one iteration of [while True] ends. *)
Inductive Flow : Type :=
| Returns (t : Tuple)
| Breaks (l : Locals)
| Continues (cursor : string) (l : Locals).

Section Resolver.

(** Python's [str.lower]. *)
Variable lower : string -> string.

Variable env : Env.

(** [c["name"].lower() == name.lower()] *)
Definition exact_match (name : string) (c : Item) : bool :=
  String.eqb (lower (item_name c)) (lower name).

(** [profile and profile.get("display_name") == name] *)
Definition display_match (name : string) (c : Item) : bool :=
  match profile c with
  | None => false
  | Some p =>
      match display_name p with
      | None => false
      | Some d => String.eqb d name
      end
  end.

(** The candidate on record, if any, is a user the predicate [P] holds of,
    displayed as the query. *)
Definition candidate_from (P : Item -> Prop) (name : string) (l : Locals) : Prop :=
  forall t, id_data l = Some t ->
    exists c, P c /\ display_match name c = true /\ t = ("@", Some (item_id c), false).

(** The display-name bookkeeping done for an item that is not an exact
    match. *)
Definition record_item (list_type prefix name : string) (c : Item) (l : Locals) : Locals :=
  if String.eqb list_type "users" then
    if display_match name c then
      match id_data l with
      | Some _ => {| id_data := id_data l; found_duplicate := true |}
      | None => {| id_data := Some (prefix, Some (item_id c), false);
                   found_duplicate := found_duplicate l |}
      end
    else l
  else l.

(** [for c in items[result_name]]: an exact name match returns at once
    (left); otherwise the updated locals fall out of the loop (right). *)
Fixpoint scan_items (list_type prefix name : string) (items : list Item) (l : Locals)
  : Tuple + Locals :=
  match items with
  | [] => inr l
  | c :: rest =>
      if exact_match name c then inl (prefix, Some (item_id c), false)
      else scan_items list_type prefix name rest (record_item list_type prefix name c l)
  end.

Definition list_request (list_type cursor : string) : Request :=
  {| endpoint := "/" ++ list_type ++ ".list"; cursor := cursor; limit := 1000%Z |}.

(** The body of [while True] for the list type [lt], entered with [cursor]. *)
Definition while_body (name : string) (time_to_quit : Q) (lt : ListType)
  (cursor : string) (l : Locals) (w : World) : Flow * World :=
  let '(list_type, result_name, prefix) := lt in
  let '(reply, w1) := call_get env (list_request list_type cursor) w in
  match reply with
  | inl e =>
      (Returns (prefix, None, false),
       logger_info ("rule.slack." ++ list_type ++ "_list_failed") e w1)
  | inr items =>
      match scan_items list_type prefix name (results items) l with
      | inl t => (Returns t, w1)
      | inr l' =>
          let cursor' := next_cursor items in
          let '(now, w2) := read_clock env w1 in
          if Qgtb now time_to_quit then (Returns (prefix, None, true), w2)
          else if negb (truthy cursor') then (Breaks l', w2)
          else (Continues (cursor_value cursor') l', w2)
      end
  end.

(** [while True]: [None] when the fuel runs out before the loop ends;
    otherwise the tuple returned from inside the loop (left) or the locals
    at the [break] (right). *)
Fixpoint while_true (fuel : nat) (name : string) (time_to_quit : Q) (lt : ListType)
  (cursor : string) (l : Locals) (w : World) : option ((Tuple + Locals) * World) :=
  match fuel with
  | O => None
  | S fuel' =>
      match while_body name time_to_quit lt cursor l w with
      | (Returns t, w') => Some (inl t, w')
      | (Breaks l', w') => Some (inr l', w')
      | (Continues cursor' l', w') => while_true fuel' name time_to_quit lt cursor' l' w'
      end
  end.

(** What follows the [while] loop of one list type: the duplicate check,
    the candidate, or the next list type [next]. *)
Definition after_while (name : string)
  (next : Locals -> World -> option (Res Tuple * World))
  (r : option ((Tuple + Locals) * World)) : option (Res Tuple * World) :=
  match r with
  | None => None
  | Some (inl t, w') => Some (Return t, w')
  | Some (inr l', w') =>
      if found_duplicate l' then Some (Raise (DuplicateDisplayNameError name), w')
      else match id_data l' with
           | Some t => Some (Return t, w')
           | None => next l' w'
           end
  end.

(** [for list_type, result_name, prefix in list_types], followed by the
    final [return (prefix, None, False)].  [prefix] is the binding the loop
    variable has on entry, if any. *)
Fixpoint for_list_types (fuel : nat) (name : string) (time_to_quit : Q)
  (list_types : list ListType) (prefix : option string) (l : Locals) (w : World)
  : option (Res Tuple * World) :=
  match list_types with
  | [] =>
      match prefix with
      | Some p => Some (Return (p, None, false), w)
      | None => Some (Raise (UnboundLocalError "prefix"), w)
      end
  | lt :: rest =>
      after_while name
        (for_list_types fuel name time_to_quit rest (Some (snd lt)))
        (while_true fuel name time_to_quit lt "" l w)
  end.

Definition get_channel_id_with_timeout (fuel : nat) (name : string) (timeout : Q)
  (w : World) : option (Res Tuple * World) :=
  let '(now, w1) := read_clock env w in
  let time_to_quit := (now + timeout)%Q in
  for_list_types fuel name time_to_quit LIST_TYPES None init_locals w1.

(** [get_channel_id]: the organization and the integration only supply the
    credentials of the client. *)
Definition get_channel_id (fuel : nat) (name : string) (use_async_lookup : bool)
  (w : World) : option (Res Tuple * World) :=
  let name := strip_channel_name name in
  let timeout := if use_async_lookup then (3 * 60)%Q else SLACK_DEFAULT_TIMEOUT in
  get_channel_id_with_timeout fuel name timeout w.

(** ** Points of a run *)

Definition lt_name (lt : ListType) : string := fst (fst lt).
Definition lt_prefix (lt : ListType) : string := snd lt.

(** The head of [while True]: the list type being paged through, the
    cursor of the next request, the list types still to come, the locals
    and the world. *)
Record Config : Type := {
  at_type : ListType;
  at_cursor : string;
  later : list ListType;
  at_locals : Locals;
  at_world : World
}.

(** The rest of the call from the head of [while True]. *)
Definition resume (fuel : nat) (name : string) (time_to_quit : Q) (c : Config)
  : option (Res Tuple * World) :=
  after_while name
    (for_list_types fuel name time_to_quit (later c) (Some (snd (at_type c))))
    (while_true fuel name time_to_quit (at_type c) (at_cursor c) (at_locals c) (at_world c)).

Definition step (name : string) (time_to_quit : Q) (c : Config) : Flow * World :=
  while_body name time_to_quit (at_type c) (at_cursor c) (at_locals c) (at_world c).

(** The request sent at a configuration, the reply to it and the world
    right after the call. *)
Definition request_at (c : Config) : Request :=
  list_request (lt_name (at_type c)) (at_cursor c).

Definition fetched (c : Config) : string + Page :=
  fst (call_get env (request_at c) (at_world c)).

Definition after_fetch (c : Config) : World :=
  snd (call_get env (request_at c) (at_world c)).

(** The world after the page-boundary reading of the clock. *)
Definition after_check (c : Config) : World :=
  snd (read_clock env (after_fetch c)).

(** The reading [time.time()] gives at the page boundary. *)
Definition check_time (c : Config) : Q :=
  fst (read_clock env (after_fetch c)).

(** ** Paging through a list *)

Definition items_of (pages : list Page) : list Item := flat_map results pages.

(** The world after one iteration that fetched a page and checked the
    clock. *)
Definition turn_page (lt : ListType) (cur : string) (w : World) : World :=
  snd (read_clock env (snd (call_get env (list_request (lt_name lt) cur) w))).

(** [serves time_to_quit lt cur w pages]: asked for the list [lt] from the
    cursor [cur] in world [w], the client returns the pages [pages] one
    after the other, each naming the cursor of the next and the last one
    naming none, and at each page boundary the clock has not passed
    [time_to_quit]. *)
Fixpoint serves (time_to_quit : Q) (lt : ListType) (cur : string) (w : World)
  (pages : list Page) : Prop :=
  match pages with
  | [] => False
  | pg :: more =>
      fst (call_get env (list_request (lt_name lt) cur) w) = inr pg /\
      Qgtb (fst (read_clock env (snd (call_get env (list_request (lt_name lt) cur) w))))
           time_to_quit = false /\
      match more with
      | [] => truthy (next_cursor pg) = false
      | _ :: _ =>
          truthy (next_cursor pg) = true /\
          serves time_to_quit lt (cursor_value (next_cursor pg)) (turn_page lt cur w) more
      end
  end.

(** The world after paging through [pages]. *)
Fixpoint paged (lt : ListType) (cur : string) (w : World) (pages : list Page) : World :=
  match pages with
  | [] => w
  | pg :: more => paged lt (cursor_value (next_cursor pg)) (turn_page lt cur w) more
  end.

(** The locals after the items [items], none of which is an exact match. *)
Definition record_items (list_type prefix name : string) (items : list Item) (l : Locals)
  : Locals :=
  fold_left (fun l c => record_item list_type prefix name c l) items l.

(** [served_in w0 w list_name c]: among the requests sent after those of
    [w0] and up to [w], one went to the list [list_name] and the client
    answered it with a page that holds the item [c]. *)
Definition served_in (w0 w : World) (list_name : string) (c : Item) : Prop :=
  exists n cur pg,
    length (requests w0) <= n /\
    nth_error (requests w) n = Some (list_request list_name cur) /\
    client_get env n (list_request list_name cur) = inr pg /\
    In c (results pg).

(** The configurations a run goes through, from [start] on: the next page
    of the same list type after [continue], the first page of the next list
    type after a [break] that neither raises nor returns a candidate. *)
Inductive Visits (name : string) (time_to_quit : Q) (start : Config) : Config -> Prop :=
| visits_start : Visits name time_to_quit start start
| visits_next_page c cursor' l' w' :
    Visits name time_to_quit start c ->
    step name time_to_quit c = (Continues cursor' l', w') ->
    Visits name time_to_quit start
      {| at_type := at_type c; at_cursor := cursor'; later := later c;
         at_locals := l'; at_world := w' |}
| visits_next_type c l' w' lt rest :
    Visits name time_to_quit start c ->
    step name time_to_quit c = (Breaks l', w') ->
    found_duplicate l' = false ->
    id_data l' = None ->
    later c = lt :: rest ->
    Visits name time_to_quit start
      {| at_type := lt; at_cursor := ""; later := rest;
         at_locals := l'; at_world := w' |}.

(** The deadline and the first configuration of
    [get_channel_id_with_timeout name timeout] called in world [w]. *)
Definition deadline (timeout : Q) (w : World) : Q :=
  (fst (read_clock env w) + timeout)%Q.

Definition first_config (w : World) : Config :=
  {| at_type := ("conversations", "channels", CHANNEL_PREFIX);
     at_cursor := "";
     later := [("users", "members", MEMBER_PREFIX)];
     at_locals := init_locals;
     at_world := snd (read_clock env w) |}.

(** [Scans name timeout w c]: the call [get_channel_id_with_timeout name
    timeout] made in world [w] gets to fetch a page at [c]. *)
Definition Scans (name : string) (timeout : Q) (w : World) (c : Config) : Prop :=
  Visits name (deadline timeout w) (first_config w) c.

(** [resolves name timeout w r]: the call ends with [r], whatever fuel at
    least some bound the loop is given. *)
Definition resolves (name : string) (timeout : Q) (w : World) (r : Res Tuple * World) : Prop :=
  exists fuel, forall fuel', fuel <= fuel' ->
    get_channel_id_with_timeout fuel' name timeout w = Some r.

End Resolver.

(** ** Scripted environments for the examples *)

(** A mock in the style of the test suite: the clock readings and the
    replies are served in order, whatever the request; past the end of the
    script the clock stays at its last reading and the client fails. *)
Definition scripted (clock : list Q) (replies : list (string + Page)) : Env :=
  {| time_time := fun n => nth n clock (last clock 0%Q);
     client_get := fun n _ => nth n replies (inl "script exhausted") |}.

Definition a_channel (name id : string) : Item :=
  {| item_name := name; item_id := id; profile := None |}.

Definition a_member (name id display : string) : Item :=
  {| item_name := name; item_id := id;
     profile := Some {| display_name := Some display |} |}.

Definition page (items : list Item) (next : option string) : string + Page :=
  inr {| results := items; next_cursor := next |}.

Definition users_type : ListType := ("users", "members", MEMBER_PREFIX).
Definition conversations_type : ListType := ("conversations", "channels", CHANNEL_PREFIX).

(** One page of channels, then a page of members in which two display
    names equal to the query come before a member named like it; the clock
    is past any short deadline once that page has been scanned. *)
Definition env_general : Env :=
  scripted [0%Q; 1%Q; 100%Q]
    [page [a_channel "random" "C1"] None;
     page [a_member "jdoe" "U1" "General"; a_member "jd2" "U2" "General";
           a_member "general" "U3" "Someone"; a_member "gen" "U4" "General"]
          (Some "dXNlcjpVMDYx")].

(** The run on [env_general] at the head of the users loop. *)
Definition at_users_general : Config :=
  {| at_type := users_type; at_cursor := ""; later := [];
     at_locals := init_locals;
     at_world := {| clock_reads := 2;
                    requests := [list_request "conversations" ""];
                    logged := [] |} |}.

(** The second page of channels cannot be fetched. *)
Definition env_rate_limited : Env :=
  scripted [0%Q; 1%Q; 2%Q]
    [page [a_channel "random" "C1"] (Some "bmV4dDoy");
     inl "rate_limited";
     page [a_member "general" "U3" "General"] None].

(** The run on [env_rate_limited] at the second page of channels. *)
Definition at_second_page : Config :=
  {| at_type := conversations_type; at_cursor := "bmV4dDoy";
     later := [users_type];
     at_locals := init_locals;
     at_world := {| clock_reads := 2;
                    requests := [list_request "conversations" ""];
                    logged := [] |} |}.

(** The channels hold no match; two users on the first of two pages of
    users are displayed as Jane Doe. *)
Definition jane_pages : list Page :=
  [{| results := [a_member "jane" "U1" "Jane Doe"; a_member "jdoe" "U2" "Jane Doe"];
      next_cursor := Some "dXNlcjpVMg==" |};
   {| results := [a_member "rsmith" "U3" "Bob"]; next_cursor := Some "" |}].

Definition channel_pages : list Page :=
  [{| results := [a_channel "random" "C1"; a_channel "general" "C123"];
      next_cursor := None |}].

Definition env_jane : Env :=
  scripted [0%Q; 1%Q; 2%Q; 3%Q] (map inr (channel_pages ++ jane_pages)).

(** The same pages with a clock that has run eleven seconds when the first
    page of users has been scanned. *)
Definition env_jane_slow : Env :=
  scripted [0%Q; 1%Q; 11%Q; 12%Q] (map inr (channel_pages ++ jane_pages)).

(** The run on [env_jane_slow] at the head of the users loop. *)
Definition at_users_jane : Config :=
  {| at_type := users_type; at_cursor := ""; later := [];
     at_locals := init_locals;
     at_world := {| clock_reads := 2;
                    requests := [list_request "conversations" ""];
                    logged := [] |} |}.

(** The clock has run eleven seconds when the first page has been
    scanned. *)
Definition env_slow : Env :=
  scripted [0%Q; 11%Q] [page [a_channel "random" "C1"] (Some "bmV4dDoy")].

(** A client that always has a next page, and a clock that advances one
    second per reading. *)
Definition env_endless : Env :=
  {| time_time := fun n => inject_Z (Z.of_nat n);
     client_get := fun _ _ => page [a_channel "random" "C1"] (Some "bmV4dA==") |}.

End Slack.

(** * [sentry/notifications/manager.py] *)

Module Notifications.

(** The fields read of the model objects; a model instance is truthy. *)
Record User : Type := { user_id : Z; user_actor : Z }.
Record Team : Type := { team_actor : Z }.
Record Project : Type := { project_id : Z }.
Record Organization : Type := { organization_id : Z }.

Inductive NotificationScopeType : Type := USER | ORGANIZATION | PROJECT.

(** [if user_id:] holds for an [int] other than 0. *)
Definition _get_scope (user_id : option Z) (project : option Project)
  (organization : option Organization) : Res (NotificationScopeType * Z) :=
  match project with
  | Some p => Return (PROJECT, project_id p)
  | None =>
      match organization with
      | Some o => Return (ORGANIZATION, organization_id o)
      | None =>
          match user_id with
          | Some n =>
              if Z.eqb n 0
              then Raise (Exception "scope must be either user, organization, or project")
              else Return (USER, n)
          | None => Raise (Exception "scope must be either user, organization, or project")
          end
      end
  end.

Definition _get_target (user : option User) (team : option Team) : Res Z :=
  match user with
  | Some u => Return (user_actor u)
  | None =>
      match team with
      | Some t => Return (team_actor t)
      | None => Raise (Exception "target must be either a user or a team")
      end
  end.

Definition bind {A B : Type} (r : Res A) (k : A -> Res B) : Res B :=
  match r with
  | Return a => k a
  | Raise e => Raise e
  end.

(** The first lines shared by [get_settings], [update_settings] and
    [remove_settings]: [user_id_option = getattr(user, "id", None)], then
    the scope, then the target. *)
Definition coordinates (user : option User) (team : option Team)
  (project : option Project) (organization : option Organization)
  : Res (NotificationScopeType * Z * Z) :=
  let user_id_option := option_map user_id user in
  bind (_get_scope user_id_option project organization) (fun scope =>
  bind (_get_target user team) (fun target =>
  Return (scope, target))).

Definition raises {A : Type} (r : Res A) : bool :=
  match r with Raise _ => true | Return _ => false end.

Section Manager.

(** The enums of [sentry.notifications.types] and [ExternalProviders], the
    legacy mapping, [UserOption] and the model rows are not part of these
    files: they are parameters here, and every call into them may raise. *)
Variable Provider SettingType OptionValue LegacyKey LegacyValue UserOptionValue : Type.

(** A row of the manager's model, and the contents of the database. *)
Variable Setting Store : Type.

(** [value == NotificationSettingOptionValues.DEFAULT] and
    [type == NotificationSettingTypes.ISSUE_ALERTS] *)
Variable is_DEFAULT : OptionValue -> bool.
Variable is_ISSUE_ALERTS : SettingType -> bool.

(** [sentry.notifications.legacy_mappings]; the legacy value may be
    [None], which [is_None] tells. *)
Variable get_legacy_key : SettingType -> Res LegacyKey.
Variable get_legacy_value : SettingType -> OptionValue -> Res LegacyValue.
Variable is_None : LegacyValue -> bool.

(** [int(legacy_value)], and a [str] used as a key. *)
Variable int : LegacyValue -> Res LegacyValue.
Variable str_key : string -> LegacyKey.

(** [f"value '{value}' is not valid for type '{type}'"] *)
Variable invalid_value_message : OptionValue -> SettingType -> string.

(** [setting.value != value.value] *)
Variable value_differs : Setting -> OptionValue -> bool.

(** A call that reads or writes the database: it returns or raises, and
    leaves a database behind. *)
Definition M (A : Type) : Type := Store -> Res A * Store.

(** The queries, on the rows with a given provider, type, scope and target:
    [self.filter(...).first()], [self.filter(...).delete()],
    [self.get_or_create(..., defaults={"value": value.value})] and
    [setting.update(value=value.value)]. *)
Variable filter_first :
  Provider -> SettingType -> NotificationScopeType * Z * Z -> Store -> Res (option Setting).
Variable filter_delete :
  Provider -> SettingType -> NotificationScopeType * Z * Z -> M unit.
Variable get_or_create :
  Provider -> SettingType -> NotificationScopeType * Z * Z -> OptionValue -> M (Setting * bool).
Variable setting_update : Setting -> OptionValue -> M unit.

(** [UserOption.objects.get_value(user, key, project=..., organization=...)],
    [UserOption.objects.set_value(user, key=..., value=..., project=...,
    organization=...)] and [UserOption.objects.unset_value(user, project, key)]. *)
Variable get_value :
  option User -> LegacyKey -> option Project -> option Organization -> Store
  -> Res UserOptionValue.
Variable set_value :
  option User -> LegacyKey -> LegacyValue -> option Project -> option Organization -> M unit.
Variable unset_value : option User -> option Project -> LegacyKey -> M unit.

Definition ret {A : Type} (a : A) : M A := fun db => (Return a, db).

Definition raise {A : Type} (e : Exn) : M A := fun db => (Raise e, db).

(** A call that does not touch the database. *)
Definition lift {A : Type} (r : Res A) : M A := fun db => (r, db).

(** A query that only reads. *)
Definition read {A : Type} (q : Store -> Res A) : M A := fun db => (q db, db).

Definition bindM {A B : Type} (m : M A) (k : A -> M B) : M B := fun db =>
  match m db with
  | (Return a, db') => k a db'
  | (Raise e, db') => (Raise e, db')
  end.

Local Notation "x <- m ;; k" := (bindM m (fun x => k))
  (at level 61, m at next level, right associativity).

(** [with transaction.atomic():] an exception raised in the block leaves
    the block after the writes made in it are rolled back. *)
Definition transaction_atomic {A : Type} (block : M A) : M A := fun db =>
  match block db with
  | (Return a, db') => (Return a, db')
  | (Raise e, _) => (Raise e, db)
  end.

(** A call that never writes, and a call that has written nothing when it
    raises. *)
Definition writes_nothing {A : Type} (m : M A) : Prop :=
  forall db, snd (m db) = db.

Definition keeps_on_error {A : Type} (m : M A) : Prop :=
  forall db, raises (fst (m db)) = true -> snd (m db) = db.

(** [get_legacy_value(type, value) is not None] *)
Definition validate (type : SettingType) (value : OptionValue) : Res bool :=
  bind (get_legacy_value type value) (fun legacy_value =>
  Return (negb (is_None legacy_value))).

(** The row read with [self.filter(...).first()] is not used: the legacy
    value is what is returned. *)
Definition get_settings (provider : Provider) (type : SettingType)
  (user : option User) (team : option Team) (project : option Project)
  (organization : option Organization) : M UserOptionValue :=
  at_ <- lift (coordinates user team project organization) ;;
  _ <- read (filter_first provider type at_) ;;
  key <- lift (get_legacy_key type) ;;
  read (get_value user key project organization).

Definition remove_settings (provider : Provider) (type : SettingType)
  (user : option User) (team : option Team) (project : option Project)
  (organization : option Organization) : M unit :=
  at_ <- lift (coordinates user team project organization) ;;
  transaction_atomic (
    _ <- filter_delete provider type at_ ;;
    key <- lift (get_legacy_key type) ;;
    unset_value user project key).

Definition update_settings (provider : Provider) (type : SettingType) (value : OptionValue)
  (user : option User) (team : option Team) (project : option Project)
  (organization : option Organization) : M unit :=
  (* A missing DB row is equivalent to DEFAULT. *)
  if is_DEFAULT value then
    remove_settings provider type user team project organization
  else
    valid <- lift (validate type value) ;;
    if negb valid then
      raise (Exception (invalid_value_message value type))
    else
      at_ <- lift (coordinates user team project organization) ;;
      key <- lift (get_legacy_key type) ;;
      legacy_value <- lift (get_legacy_value type value) ;;
      (* if type == NotificationSettingTypes.ISSUE_ALERTS: *)
      translated <-
        (if is_ISSUE_ALERTS type then
           legacy_value' <- lift (int legacy_value) ;;
           ret (match project with
                | None => str_key "subscribe_by_default"
                | Some _ => key
                end, legacy_value')
         else ret (key, legacy_value)) ;;
      transaction_atomic (
        found <- get_or_create provider type at_ value ;;
        _ <- (if negb (snd found) && value_differs (fst found) value
              then setting_update (fst found) value
              else ret tt) ;;
        set_value user (fst translated) (snd translated) project organization).

End Manager.

(** A user, a project and an organization for the examples. *)
Definition alice : User := {| user_id := 1; user_actor := 11 |}.
Definition backend : Project := {| project_id := 7 |}.
Definition acme : Organization := {| organization_id := 3 |}.

End Notifications.

(** * [parse_link] of [sentry/integrations/slack/utils.py] *)

Module Links.

(** Python's [s.rstrip(chars)] and [s.strip(chars)]. *)
Fixpoint rstrip (chars s : string) : string :=
  match s with
  | EmptyString => EmptyString
  | String a rest =>
      match rstrip chars rest with
      | EmptyString => if Slack.mem_char a chars then EmptyString else String a EmptyString
      | r => String a r
      end
  end.

Definition strip (chars s : string) : string :=
  Slack.lstrip chars (rstrip chars s).

(** Python's [s.split(sep)] for a separator of one character: the pieces
    between the separators, [[""]] for the empty string. *)
Fixpoint split (sep : ascii) (s : string) : list string :=
  match s with
  | EmptyString => [EmptyString]
  | String a rest =>
      if Ascii.eqb a sep then EmptyString :: split sep rest
      else match split sep rest with
           | [] => [String a EmptyString]
           | piece :: pieces => String a piece :: pieces
           end
  end.

Definition scrubbed_items : list (string * string) :=
  [("organizations", "organization"); ("issues", "issue_id"); ("events", "event_id")].

(** [scrubbed_items[item]] when [item in scrubbed_items]. *)
Fixpoint lookup (d : list (string * string)) (key : string) : option string :=
  match d with
  | [] => None
  | (k, v) :: rest => if String.eqb key k then Some v else lookup rest key
  end.

(** ["{%s}" % v] *)
Definition placeholder (v : string) : string := "{" ++ v ++ "}".

(** [for index, item in enumerate(parsed_path)]: the loop writes into
    [parsed_path[index + 1]] and reads that element in the next iteration.
    [pending] is what the previous iteration wrote into the element now
    read, if it wrote; the result is [new_path]. *)
Fixpoint scrub_from (pending : option string) (parsed_path : list string) : list string :=
  match parsed_path with
  | [] => []
  | x :: rest =>
      let item := match pending with
                  | Some written => written
                  | None => x
                  end in
      item :: scrub_from (option_map placeholder (lookup scrubbed_items item)) rest
  end.

Definition scrub_path (parsed_path : list string) : list string :=
  scrub_from None parsed_path.

(** A value of the query dictionary: the list that [parse_qs] gives, or the
    text that the loop puts in its place. *)
Inductive QueryValue : Type :=
| Values (vs : list string)
| Text (t : string).

(** [for param in query: if param == "project": query.update(...)] *)
Definition scrub_query (query : list (string * list string)) : list (string * QueryValue) :=
  map (fun kv => if String.eqb (fst kv) "project"
                 then (fst kv, Text "{project}")
                 else (fst kv, Values (snd kv)))
      query.

Section ParseLink.

(** [urllib.parse]: the path and the query of [urlparse(url)], [parse_qs]
    as the dictionary's items and [urlencode]. *)
Variable urlparse_path urlparse_query : string -> string.
Variable parse_qs : string -> list (string * list string).
Variable urlencode : list (string * QueryValue) -> string.

Definition parse_link (url : string) : string :=
  let query := scrub_query (parse_qs (urlparse_query url)) in
  let parsed_path := split "/" (strip "/" (urlparse_path url)) in
  let new_path := scrub_path parsed_path in
  String.concat "/" new_path ++ "/" ++ urlencode query.

End ParseLink.

End Links.

(** * The message builders of [sentry/integrations/slack/utils.py] *)

Module Messages.

Local Open Scope string_scope.

Inductive PyError : Type :=
| KeyError (key : string)
| IndexError
| NotImplementedError
| AttributeError.

Inductive Result (A : Type) : Type :=
| Ok (a : A)
| Err (e : PyError).
Arguments Ok {A} a.
Arguments Err {A} e.

(** A dictionary with string keys and string values; [get d key] is
    [d.get(key)]. *)
Definition Dict : Type := list (string * string).

Definition get (d : Dict) (key : string) : option string := Links.lookup d key.

(** [str(n)] for an [int]. *)
Definition str_int (n : Z) : string := NilZero.string_of_int (Z.to_int n).

(** ** Colors *)

Definition ACTIONED_ISSUE_COLOR : string := "#EDEEEF".
Definition RESOLVED_COLOR : string := "#4dc771".
Definition LEVEL_TO_COLOR : Dict :=
  [("debug", "#fbe14f"); ("info", "#2788ce"); ("warning", "#FFC227");
   ("error", "#E03E2F"); ("fatal", "#FA4747")].

(** ** Actors and assignee options *)

(** [get_display_name()] and [id] of a user; [slug] and [id] of a team. *)
Record User : Type := { user_id : Z; display_name : string }.
Record Team : Type := { team_id : Z; slug : string }.

(** What [isinstance] tells of an actor. *)
Inductive Actor : Type :=
| UserActor (u : User)
| TeamActor (t : Team)
| OtherActor.

Record ActorOption : Type := { text : string; value : string }.

Definition format_actor_option (actor : Actor) : Result ActorOption :=
  match actor with
  | UserActor u => Ok {| text := display_name u; value := "user:" ++ str_int (user_id u) |}
  | TeamActor t => Ok {| text := "#" ++ slug t; value := "team:" ++ str_int (team_id t) |}
  | OtherActor => Err NotImplementedError
  end.

(** [[f(x) for x in xs]] where [f] may raise: the first error ends the
    comprehension. *)
Fixpoint for_each {A B : Type} (f : A -> Result B) (xs : list A) : Result (list B) :=
  match xs with
  | [] => Ok []
  | x :: rest =>
      match f x with
      | Err e => Err e
      | Ok y =>
          match for_each f rest with
          | Err e => Err e
          | Ok ys => Ok (y :: ys)
          end
      end
  end.

(** [sorted(xs, key=key)] on string keys: a stable sort. *)
Fixpoint insert_by {A : Type} (key : A -> string) (x : A) (sorted_ : list A) : list A :=
  match sorted_ with
  | [] => [x]
  | y :: rest =>
      if String.leb (key x) (key y) then x :: y :: rest
      else y :: insert_by key x rest
  end.

Fixpoint sorted {A : Type} (key : A -> string) (xs : list A) : list A :=
  match xs with
  | [] => []
  | x :: rest => insert_by key x (sorted key rest)
  end.

(** The option of a user. *)
Definition user_option (u : User) : ActorOption :=
  {| text := display_name u; value := "user:" ++ str_int (user_id u) |}.

(** [get_member_assignees], given the users of the members that the query
    selects. *)
Definition get_member_assignees (queryset : list User) : Result (list ActorOption) :=
  let members := sorted display_name queryset in
  for_each (fun u => format_actor_option (UserActor u)) members.

(** [get_team_assignees], given [group.project.teams.all()]. *)
Definition get_team_assignees (teams : list Team) : Result (list ActorOption) :=
  for_each (fun t => format_actor_option (TeamActor t)) teams.

(** ** Titles and texts *)

(** What the builders read of a group or an event. *)
Record EventLike : Type := {
  get_event_type : string;
  get_event_metadata : Dict;
  title : string
}.

Definition build_attachment_title (obj : EventLike) : Result string :=
  let ev_metadata := get_event_metadata obj in
  let ev_type := get_event_type obj in
  match String.eqb ev_type "error", get ev_metadata "type" with
  | true, Some type_ => Ok type_
  | _, _ =>
      if String.eqb ev_type "csp" then
        match get ev_metadata "directive" with
        | None => Err (KeyError "directive")
        | Some directive =>
            match get ev_metadata "uri" with
            | None => Err (KeyError "uri")
            | Some uri => Ok (directive ++ " - " ++ uri)
            end
        end
      else Ok (title obj)
  end.

(** [a or b] on optional strings: [None] and [""] are falsy. *)
Definition or_else (a b : option string) : option string :=
  match a with
  | Some (String _ _) => a
  | _ => b
  end.

Definition build_attachment_text (group : EventLike) (event : option EventLike)
  : option string :=
  let obj := match event with Some e => e | None => group end in
  let ev_metadata := get_event_metadata obj in
  let ev_type := get_event_type obj in
  if String.eqb ev_type "error"
  then or_else (get ev_metadata "value") (get ev_metadata "function")
  else None.

(** ** Action texts *)

(** [identity.external_id] and [identity.idp.external_id]. *)
Record Identity : Type := { external_id : string; idp_external_id : string }.

(** An actor tuple: its type, and what [resolve()] finds ([None] when it
    raises the type's [DoesNotExist]). *)
Inductive ActorTuple : Type :=
| TeamTuple (resolved : option Team)
| UserTuple (resolved : option User)
| OtherTuple (resolved : bool).

(** The action of an interactive message: [action["name"]],
    [action["value"]] when the key is there, and the ["value"]s of
    [action["selected_options"]] when that key is there. *)
Record MessageAction : Type := {
  name : string;
  action_value : option string;
  selected_options : option (list string)
}.

(** [s.split(":", 1)[0]] *)
Fixpoint before_colon (s : string) : string :=
  match s with
  | EmptyString => EmptyString
  | String a rest => if Ascii.eqb a ":" then EmptyString else String a (before_colon rest)
  end.

Definition statuses : Dict :=
  [("resolved", "resolved"); ("ignored", "ignored"); ("unresolved", "re-opened")].

Section ActionTexts.

(** [ActorTuple.from_actor_identifier], and the external id of the Slack
    identity that a user has with the identity provider of a given external
    id, if there is one. *)
Variable from_actor_identifier : string -> ActorTuple.
Variable slack_identity : User -> string -> option string.

(** The identity may be [None]; reading an attribute of it then raises
    [AttributeError]. *)
Definition build_assigned_text (identity : option Identity) (assignee : string)
  : Result (option string) :=
  let finish assignee_text :=
    match identity with
    | None => Err AttributeError
    | Some i =>
        Ok (Some ("*Issue assigned to " ++ assignee_text ++ " by <@"
                  ++ external_id i ++ ">*"))
    end in
  match from_actor_identifier assignee with
  | TeamTuple None | UserTuple None | OtherTuple false => Ok None
  | TeamTuple (Some assigned_actor) => finish ("#" ++ slug assigned_actor)
  | UserTuple (Some assigned_actor) =>
      match identity with
      | None => Err AttributeError
      | Some i =>
          match slack_identity assigned_actor (idp_external_id i) with
          | Some assignee_ident => finish ("<@" ++ assignee_ident ++ ">")
          | None => finish (display_name assigned_actor)
          end
      end
  | OtherTuple true => Err NotImplementedError
  end.

Definition build_action_text (identity : option Identity) (action : MessageAction)
  : Result (option string) :=
  if String.eqb (name action) "assign" then
    match selected_options action with
    | None => Err (KeyError "selected_options")
    | Some [] => Err IndexError
    | Some (assignee :: _) => build_assigned_text identity assignee
    end
  else
    match action_value action with
    | None => Err (KeyError "value")
    | Some v =>
        let status := before_colon v in
        match get statuses status with
        | None => Ok None
        | Some status_text =>
            match identity with
            | None => Err AttributeError
            | Some i =>
                Ok (Some ("*Issue " ++ status_text ++ " by <@" ++ external_id i ++ ">*"))
            end
        end
    end.

End ActionTexts.

(** ** Incident attachments *)

(** The dictionary that [incident_attachment_info] returns. *)
Record IncidentInfo (Timestamp : Type) : Type := {
  info_title : string;
  info_title_link : string;
  info_text : string;
  info_logo_url : string;
  info_status : string;
  info_ts : Timestamp
}.
Arguments info_title {Timestamp} _.
Arguments info_title_link {Timestamp} _.
Arguments info_text {Timestamp} _.
Arguments info_logo_url {Timestamp} _.
Arguments info_status {Timestamp} _.
Arguments info_ts {Timestamp} _.

Record IncidentAttachment : Type := {
  fallback : string;
  attachment_title : string;
  title_link : string;
  attachment_text : string;
  fields : list (string * string);
  mrkdwn_in : list string;
  footer_icon : string;
  footer : string;
  color : string;
  actions : list string
}.

Definition incident_colors : Dict :=
  [("Resolved", RESOLVED_COLOR); ("Warning", "#FFC227"); ("Critical", "#FA4747")].

Section Incidents.

Variable Timestamp : Type.

(** ["{:.0f}".format(to_timestamp(ts))] *)
Variable format_timestamp : Timestamp -> string.

(** [build_incident_attachment], given
    [data = incident_attachment_info(incident, metric_value, action=action,
    method=method)]. *)
Definition build_incident_attachment (data : IncidentInfo Timestamp)
  : Result IncidentAttachment :=
  let incident_footer_ts :=
    "<!date^" ++ format_timestamp (info_ts data)
    ++ "^Sentry Incident - Started {date_pretty} at {time} | Sentry Incident>" in
  match get incident_colors (info_status data) with
  | None => Err (KeyError (info_status data))
  | Some color_ =>
      Ok {| fallback := info_title data;
            attachment_title := info_title data;
            title_link := info_title_link data;
            attachment_text := info_text data;
            fields := [];
            mrkdwn_in := ["text"];
            footer_icon := info_logo_url data;
            footer := incident_footer_ts;
            color := color_;
            actions := [] |}
  end.

End Incidents.

End Messages.

(** * [send_incident_alert_notification] of [sentry/integrations/slack/utils.py] *)

Module Alerts.

(** The fields read of the alert rule action and of the incident. *)
Record Action : Type := {
  integration_id : Z;
  target_identifier : string
}.

Record Incident : Type := { organization : Z }.

(** [integration.metadata], a dictionary. *)
Record Integration : Type := { metadata : Messages.Dict }.

(** The [data] of [client.post("/chat.postMessage", data=payload, timeout=5)]. *)
Record Payload : Type := {
  token : string;
  channel : string;
  attachments : string
}.

(** The posts made (oldest first, with endpoint and timeout) and the
    records logged. *)
Record Outbox : Type := {
  posts : list (string * Payload * Z);
  post_log : list (string * string)
}.

(** How a call ends for its caller: it returns [None], or an exception gets
    out of it, one of a collaborator or a builtin one of the message builder
    or of a dictionary lookup. *)
Inductive Outcome : Type :=
| ReturnNone
| RaiseExn (e : Exn)
| RaiseBuiltin (e : Messages.PyError).

Definition is_ApiError (e : Exn) : bool :=
  match e with ApiError _ => true | _ => false end.

Definition is_DoesNotExist (e : Exn) : bool :=
  match e with DoesNotExist => true | _ => false end.

Definition str (e : Exn) : string :=
  match e with
  | ApiError msg | DuplicateDisplayNameError msg | UnboundLocalError msg | Exception msg => msg
  | DoesNotExist => ""
  end.

Section Alert.

Variable Timestamp : Type.

(** ["{:.0f}".format(to_timestamp(ts))] *)
Variable format_timestamp : Timestamp -> string.

(** The collaborators, each of which may raise:
    [Integration.objects.get(id=..., organizations=..., status=VISIBLE)],
    which raises [DoesNotExist] when no visible integration has the id in
    the organization; [incident_attachment_info(incident, metric_value,
    action=action, method=method)]; [json.dumps] of a list of attachments;
    and the [n]-th [client.post]. *)
Record AlertEnv : Type := {
  objects_get : Z -> Z -> Res Integration;
  incident_attachment_info :
    Incident -> option Q -> Action -> option string -> Res (Messages.IncidentInfo Timestamp);
  json_dumps : list Messages.IncidentAttachment -> string;
  client_post : nat -> string -> Payload -> Z -> Res unit
}.

(** [client.post(endpoint, data=payload, timeout=timeout)] *)
Definition call_post (aenv : AlertEnv) (endpoint : string) (payload : Payload) (timeout : Z)
  (o : Outbox) : Res unit * Outbox :=
  let o' := {| posts := posts o ++ [(endpoint, payload, timeout)]; post_log := post_log o |} in
  (client_post aenv (length (posts o)) endpoint payload timeout, o').

Definition send_incident_alert_notification (aenv : AlertEnv) (action : Action)
  (incident : Incident) (metric_value : option Q) (method : option string) (o : Outbox)
  : Outcome * Outbox :=
  (* try: integration = Integration.objects.get(...) *)
  match objects_get aenv (integration_id action) (organization incident) with
  | Raise e =>
      (* except Integration.DoesNotExist: return *)
      if is_DoesNotExist e then (ReturnNone, o) else (RaiseExn e, o)
  | Return integration =>
      let channel := target_identifier action in
      (* attachment = build_incident_attachment(action, incident, metric_value, method) *)
      match incident_attachment_info aenv incident metric_value action method with
      | Raise e => (RaiseExn e, o)
      | Return data =>
          match Messages.build_incident_attachment Timestamp format_timestamp data with
          | Messages.Err e => (RaiseBuiltin e, o)
          | Messages.Ok attachment =>
              (* "token": integration.metadata["access_token"] *)
              match Messages.get (metadata integration) "access_token" with
              | None => (RaiseBuiltin (Messages.KeyError "access_token"), o)
              | Some access_token =>
                  let payload := {| token := access_token;
                                    channel := channel;
                                    attachments := json_dumps aenv [attachment] |} in
                  (* try: client.post(...) *)
                  match call_post aenv "/chat.postMessage" payload 5%Z o with
                  | (Raise e, o') =>
                      (* except ApiError as e: logger.info(...) *)
                      if is_ApiError e
                      then (ReturnNone,
                            {| posts := posts o';
                               post_log := post_log o' ++ [("rule.fail.slack_post", str e)] |})
                      else (RaiseExn e, o')
                  | (Return _, o') => (ReturnNone, o')
                  end
              end
          end
      end
  end.

End Alert.

Arguments objects_get {Timestamp} _ _ _.
Arguments incident_attachment_info {Timestamp} _ _ _ _ _.
Arguments json_dumps {Timestamp} _ _.
Arguments client_post {Timestamp} _ _ _ _ _.
Arguments call_post {Timestamp} aenv endpoint payload timeout o.
Arguments send_incident_alert_notification {Timestamp} format_timestamp
  aenv action incident metric_value method o.

(** ** An integration, an action and incidents for the examples *)

Definition slack_workspace : Integration :=
  {| metadata := [("access_token", "xoxb-1"); ("installation_type", "born_as_bot")] |}.

Definition classic_workspace : Integration :=
  {| metadata := [("user_access_token", "xoxp-1")] |}.

Definition to_general : Action := {| integration_id := 5; target_identifier := "C1" |}.

Definition an_incident : Incident := {| organization := 3 |}.

Definition info_with_status (status : string) : Messages.IncidentInfo Z :=
  {| Messages.info_title := "Critical: CPU";
     Messages.info_title_link := "https://sentry.io/alerts/1/";
     Messages.info_text := "95% cpu";
     Messages.info_logo_url := "https://sentry.io/logo.png";
     Messages.info_ts := 1600000000%Z;
     Messages.info_status := status |}.

(** A rendering of the attachments that keeps the title and the color. *)
Definition render (l : list Messages.IncidentAttachment) : string :=
  String.concat "," (map (fun a => (Messages.attachment_title a ++ ":" ++ Messages.color a)%string) l).

(** The integration is visible; the incident is reported with the given
    status; every post raises [ApiError] or succeeds, as [post_fails] says. *)
Definition alert_env (integration : Integration) (status : string) (post_fails : bool)
  : AlertEnv Z :=
  {| objects_get := fun _ _ => Return integration;
     incident_attachment_info := fun _ _ _ _ => Return (info_with_status status);
     json_dumps := render;
     client_post := fun _ _ _ _ => if post_fails then Raise (ApiError "channel_not_found")
                                   else Return tt |}.

(** The integration has been removed. *)
Definition removed_env : AlertEnv Z :=
  {| objects_get := fun _ _ => Raise DoesNotExist;
     incident_attachment_info := fun _ _ _ _ => Return (info_with_status "Critical");
     json_dumps := fun _ => "[]";
     client_post := fun _ _ _ _ => Return tt |}.

Definition empty_outbox : Outbox := {| posts := []; post_log := [] |}.

End Alerts.

(** * [build_group_attachment] of [sentry/integrations/slack/utils.py] *)

Module Issues.

Import Messages.
Local Open Scope string_scope.

(** [GroupStatus.RESOLVED], [GroupStatus.IGNORED], or any other status. *)
Inductive GroupStatus : Type := RESOLVED | IGNORED | OTHER_STATUS.

(** What is read of an event, a rule, a project and a group.  Dates are
    integers; [get_absolute_url] takes the [event_id] argument, if given,
    the referrer being "slack" in every call. *)
Record Event : Type := {
  event_obj : EventLike;
  event_id : string;
  datetime : Z;
  event_tags : list (string * string);
  get_tag : string -> option string
}.

Record Rule : Type := { rule_id : Z; label : string }.

Record Project : Type := { project_pk : Z; project_slug : string }.

Record Group : Type := {
  group_obj : EventLike;
  group_id : Z;
  get_status : GroupStatus;
  organization_slug : string;
  project_id : Z;
  project_teams : list Team;
  last_seen : Z;
  qualified_short_id : string;
  get_latest_event : option Event;
  get_absolute_url : option string -> string
}.

(** The collaborators of the builder. *)
Record Site : Type := {
  absolute_uri : string -> string;
  get_asset_url : string -> string -> string;
  (* the users of the active members of the group's organization that
     share a team with the project *)
  member_users : Group -> list User;
  (* [GroupAssignee.objects.get(group=group).assigned_actor()], or [None]
     when there is no assignee *)
  group_assignee : Group -> option ActorTuple;
  get_from_cache : Z -> Project;
  (* [ReleaseProject.objects.filter(project_id=...).exists()] *)
  release_exists : Z -> bool;
  get_standardized_key : string -> string;
  get_tag_value_label : string -> string -> string;
  to_timestamp : Z -> Q;
  from_actor_identifier : string -> ActorTuple;
  slack_identity : User -> string -> option string
}.

(** The cache: under a key, a value and the timeout it was set with.
    Expiry is not modelled. *)
Definition Cache : Type := string -> option (bool * Z).

Definition cache_get (cache : Cache) (key : string) : option bool :=
  option_map fst (cache key).

Definition cache_set (cache : Cache) (key : string) (v : bool) (timeout : Z) : Cache :=
  fun k => if String.eqb k key then Some (v, timeout) else cache k.

Record Button : Type := {
  button_name : string;
  button_value : string;
  button_type : string;
  button_text : string
}.

Record OptionGroup : Type := { group_text : string; options : list ActorOption }.

Inductive PayloadAction : Type :=
| ButtonAction (b : Button)
| SelectAction (select_name select_text select_type : string)
    (selected : list (option ActorOption)) (option_groups : list OptionGroup).

Record Field : Type := { field_title : string; field_value : string; short : bool }.

Record Attachment : Type := {
  fallback : string;
  title_ : string;
  title_link : string;
  text_ : string;
  fields : list Field;
  mrkdwn_in : list string;
  callback_id : string;
  footer_icon : string;
  footer : string;
  ts : Q;
  color : string;
  actions : list PayloadAction
}.

Definition newline : string := String (ascii_of_nat 10) EmptyString.
Definition double_quote : string := String (ascii_of_nat 34) EmptyString.

Definition get_assignee (site : Site) (group : Group) : Result (option ActorOption) :=
  let some r := match r with Ok o => Ok (Some o) | Err e => Err e end in
  match group_assignee site group with
  | None => Ok None
  | Some (TeamTuple None) | Some (UserTuple None) | Some (OtherTuple false) => Ok None
  | Some (TeamTuple (Some t)) => some (format_actor_option (TeamActor t))
  | Some (UserTuple (Some u)) => some (format_actor_option (UserActor u))
  | Some (OtherTuple true) => some (format_actor_option OtherActor)
  end.

Definition build_rule_url (site : Site) (rule : Rule) (group : Group) (project : Project)
  : string :=
  let org_slug := organization_slug group in
  let project_slug_ := project_slug project in
  absolute_uri site
    ("/organizations/" ++ org_slug ++ "/alerts/rules/" ++ project_slug_ ++ "/"
     ++ str_int (rule_id rule) ++ "/").

Fixpoint mem (x : string) (xs : list string) : bool :=
  match xs with
  | [] => false
  | y :: rest => if String.eqb x y then true else mem x rest
  end.

(** [for key, value in event_tags]: the fields of the tags asked for. *)
Fixpoint tag_fields (site : Site) (tags : list string) (event_tags_ : list (string * string))
  : list Field :=
  match event_tags_ with
  | [] => []
  | (key, value_) :: rest =>
      let std_key := get_standardized_key site key in
      if mem std_key tags then
        {| field_title := std_key;
           field_value := get_tag_value_label site key value_;
           short := true |} :: tag_fields site tags rest
      else tag_fields site tags rest
  end.

(** [[_f for _f in texts if _f]] *)
Fixpoint truthy_texts (texts : list (option string)) : list string :=
  match texts with
  | [] => []
  | Some (String a t) :: rest => String a t :: truthy_texts rest
  | _ :: rest => truthy_texts rest
  end.

(** The key under which the builder caches whether the project has
    releases. *)
Definition releases_key (site : Site) (group : Group) : string :=
  "has_releases:2:" ++ str_int (project_pk (get_from_cache site (project_id group))).

(** The site with another table of releases. *)
Definition with_release_exists (site : Site) (table : Z -> bool) : Site :=
  {| absolute_uri := absolute_uri site;
     get_asset_url := get_asset_url site;
     member_users := member_users site;
     group_assignee := group_assignee site;
     get_from_cache := get_from_cache site;
     release_exists := table;
     get_standardized_key := get_standardized_key site;
     get_tag_value_label := get_tag_value_label site;
     to_timestamp := to_timestamp site;
     from_actor_identifier := from_actor_identifier site;
     slack_identity := slack_identity site |}.

Definition build_group_attachment (site : Site) (group : Group) (event : option Event)
  (tags : option (list string)) (identity : option Identity)
  (actions_ : option (list MessageAction)) (rules : option (list Rule))
  (link_to_event : bool) (cache : Cache) : Result Attachment * Cache :=
  let status := get_status group in
  match get_member_assignees (member_users site group) with
  | Err e => (Err e, cache)
  | Ok members =>
  match get_team_assignees (project_teams group) with
  | Err e => (Err e, cache)
  | Ok teams =>
  let logo_url := absolute_uri site (get_asset_url site "sentry" "images/sentry-email-avatar.png") in
  let text := match build_attachment_text (group_obj group) (option_map event_obj event) with
              | Some t => t
              | None => ""
              end in
  let actions_ := match actions_ with Some l => l | None => [] end in
  match get_assignee site group with
  | Err e => (Err e, cache)
  | Ok assignee =>
  let resolve_button :=
    {| button_name := "resolve_dialog"; button_value := "resolve_dialog";
       button_type := "button"; button_text := "Resolve..." |} in
  let ignore_button :=
    {| button_name := "status"; button_value := "ignored";
       button_type := "button"; button_text := "Ignore" |} in
  let project := get_from_cache site (project_id group) in
  let cache_key := "has_releases:2:" ++ str_int (project_pk project) in
  let '(has_releases, cache) :=
    match cache_get cache cache_key with
    | Some has_releases => (has_releases, cache)
    | None =>
        if release_exists site (project_pk project)
        then (true, cache_set cache cache_key true 3600)
        else (false, cache_set cache cache_key false 60)
    end in
  let resolve_button :=
    if negb has_releases
    then {| button_name := "status"; button_value := "resolved";
            button_type := button_type resolve_button; button_text := "Resolve" |}
    else resolve_button in
  let resolve_button :=
    match status with
    | RESOLVED => {| button_name := "status"; button_value := "unresolved";
                     button_type := button_type resolve_button;
                     button_text := "Unresolve" |}
    | _ => resolve_button
    end in
  let ignore_button :=
    match status with
    | IGNORED => {| button_name := button_name ignore_button;
                    button_value := "unresolved";
                    button_type := button_type ignore_button;
                    button_text := "Stop Ignoring" |}
    | _ => ignore_button
    end in
  let option_groups_ :=
    ((match teams with [] => [] | _ => [{| group_text := "Teams"; options := teams |}] end)
     ++ (match members with
         | [] => []
         | _ => [{| group_text := "People"; options := members |}]
         end))%list in
  let payload_actions :=
    [ButtonAction resolve_button; ButtonAction ignore_button;
     SelectAction "assign" "Select Assignee..." "select" [assignee] option_groups_] in
  let event_for_tags := match event with Some e => Some e | None => get_latest_event group end in
  let fallback_color := match get LEVEL_TO_COLOR "error" with Some c => c | None => "" end in
  let color_ :=
    match event_for_tags with
    | Some e =>
        match get_tag e "level" with
        | Some level =>
            match get LEVEL_TO_COLOR level with
            | Some c => c
            | None => fallback_color
            end
        | None => fallback_color
        end
    | None => fallback_color
    end in
  let fields_ :=
    match tags with
    | Some (t :: more) =>
        let event_tags_ := match event_for_tags with Some e => event_tags e | None => [] end in
        tag_fields site (t :: more) event_tags_
    | _ => []
    end in
  let actioned :=
    match actions_ with
    | [] => Ok (text, color_, payload_actions)
    | _ :: _ =>
        match for_each (build_action_text (from_actor_identifier site) (slack_identity site)
                          identity) actions_ with
        | Err e => Err e
        | Ok texts =>
            let action_texts := truthy_texts texts in
            Ok (text ++ newline ++ String.concat newline action_texts,
                ACTIONED_ISSUE_COLOR, [])
        end
    end in
  match actioned with
  | Err e => (Err e, cache)
  | Ok (text, color_, payload_actions) =>
  let ts_ := match event with
             | Some e => Z.max (last_seen group) (datetime e)
             | None => last_seen group
             end in
  let footer_ :=
    qualified_short_id group
    ++ match rules with
       | Some (rule :: more) =>
           " via <" ++ build_rule_url site rule group project ++ "|" ++ label rule ++ ">"
           ++ match more with
              | [] => ""
              | _ :: _ => " (+" ++ str_int (Z.of_nat (length more)) ++ " other)"
              end
       | _ => ""
       end in
  let obj := match event with Some e => event_obj e | None => group_obj group end in
  let title_link_ :=
    match event with
    | Some e => if link_to_event then get_absolute_url group (Some (event_id e))
                else get_absolute_url group None
    | None => get_absolute_url group None
    end in
  match build_attachment_title obj with
  | Err e => (Err e, cache)
  | Ok built_title =>
      (Ok {| fallback := "[" ++ project_slug project ++ "] " ++ title obj;
             title_ := built_title;
             title_link := title_link_;
             text_ := text;
             fields := fields_;
             mrkdwn_in := ["text"];
             callback_id := "{" ++ double_quote ++ "issue" ++ double_quote ++ ": "
                            ++ str_int (group_id group) ++ "}";
             footer_icon := logo_url;
             footer := footer_;
             ts := to_timestamp site ts_;
             color := color_;
             actions := payload_actions |},
       cache)
  end end end end end.

(** ** Examples *)

Definition adam : User := {| user_id := 7; display_name := "Adam" |}.
Definition zoe : User := {| user_id := 3; display_name := "Zoe" |}.

Definition example_site : Site :=
  {| absolute_uri := fun path => "https://sentry.example" ++ path;
     get_asset_url := fun module path => "/_static/" ++ module ++ "/" ++ path;
     member_users := fun _ => [zoe; adam];
     group_assignee := fun _ => Some (UserTuple (Some adam));
     get_from_cache := fun pk => {| project_pk := pk; project_slug := "backend" |};
     release_exists := fun _ => true;
     get_standardized_key := fun key => key;
     get_tag_value_label := fun _ value_ => value_;
     to_timestamp := fun date => inject_Z date;
     from_actor_identifier := fun _ => OtherTuple false;
     slack_identity := fun _ _ => None |}.

Definition example_event : Event :=
  {| event_obj := {| get_event_type := "error";
                     get_event_metadata := [("type", "ValueError"); ("value", "bad input")];
                     title := "ValueError: bad input" |};
     event_id := "9f2c";
     datetime := 1700000300;
     event_tags := [("level", "warning"); ("browser", "Firefox"); ("os", "Linux")];
     get_tag := get [("level", "warning"); ("browser", "Firefox"); ("os", "Linux")] |}.

Definition example_group : Group :=
  {| group_obj := {| get_event_type := "error";
                     get_event_metadata := [("type", "ValueError"); ("value", "bad input")];
                     title := "ValueError: bad input" |};
     group_id := 42;
     get_status := OTHER_STATUS;
     organization_slug := "acme";
     project_id := 5;
     project_teams := [{| team_id := 2; slug := "platform" |}];
     last_seen := 1700000000;
     qualified_short_id := "BACKEND-1A";
     get_latest_event := Some example_event;
     get_absolute_url := fun event_id_ =>
       match event_id_ with
       | Some e => "https://sentry.example/issues/42/events/" ++ e ++ "/?referrer=slack"
       | None => "https://sentry.example/issues/42/?referrer=slack"
       end |}.

Definition empty_cache : Cache := fun _ => None.

Definition example_identity : Identity :=
  {| external_id := "U2147483697"; idp_external_id := "T1" |}.

Definition resolve_action : MessageAction :=
  {| name := "status"; action_value := Some "resolved:inNextRelease";
     selected_options := None |}.

(** The attachment of a result, or the given one when the builder raised. *)
Definition attachment_or (default : Attachment) (r : Result Attachment * Cache) : Attachment :=
  match fst r with
  | Ok a => a
  | Err _ => default
  end.

Definition no_attachment : Attachment :=
  {| fallback := ""; title_ := ""; title_link := ""; text_ := ""; fields := [];
     mrkdwn_in := []; callback_id := ""; footer_icon := ""; footer := ""; ts := 0%Q;
     color := ""; actions := [] |}.

Definition plain_example : Attachment :=
  attachment_or no_attachment
    (build_group_attachment example_site example_group None (Some ["browser"; "level"])
       None None None false empty_cache).

Definition actioned_example : Attachment :=
  attachment_or no_attachment
    (build_group_attachment example_site example_group (Some example_event) None
       (Some example_identity) (Some [resolve_action]) None false empty_cache).

End Issues.

(** * Properties of channel resolution *)

Import Slack.

Section ResolverFacts.

Variable lower : string -> string.
Variable env : Env.

Local Abbreviation exact_match := (Slack.exact_match lower).
Local Abbreviation scan_items := (Slack.scan_items lower).
Local Abbreviation while_body := (Slack.while_body lower env).
Local Abbreviation while_true := (Slack.while_true lower env).
Local Abbreviation for_list_types := (Slack.for_list_types lower env).
Local Abbreviation get_channel_id_with_timeout := (Slack.get_channel_id_with_timeout lower env).
Local Abbreviation get_channel_id := (Slack.get_channel_id lower env).
Local Abbreviation resume := (Slack.resume lower env).
Local Abbreviation step := (Slack.step lower env).
Local Abbreviation fetched := (Slack.fetched env).
Local Abbreviation after_fetch := (Slack.after_fetch env).
Local Abbreviation after_check := (Slack.after_check env).
Local Abbreviation check_time := (Slack.check_time env).
Local Abbreviation deadline := (Slack.deadline env).
Local Abbreviation first_config := (Slack.first_config env).
Local Abbreviation Visits := (Slack.Visits lower env).
Local Abbreviation Scans := (Slack.Scans lower env).
Local Abbreviation resolves := (Slack.resolves lower env).
Local Abbreviation serves := (Slack.serves env).
Local Abbreviation paged := (Slack.paged env).
Local Abbreviation turn_page := (Slack.turn_page env).
Local Abbreviation served_in := (Slack.served_in env).

(** ** The item loop *)

Lemma scan_items_exact list_type prefix name pre x post l :
  existsb (exact_match name) pre = false ->
  exact_match name x = true ->
  scan_items list_type prefix name (pre ++ x :: post) l
  = inl (prefix, Some (item_id x), false).
Proof.
  revert l.
  induction pre as [|y pre IH]; intros l Hpre Hx; simpl in *.
  - now rewrite Hx.
  - apply orb_false_iff in Hpre as [Hy Hpre].
    rewrite Hy. now apply IH.
Qed.

Lemma scan_items_no_exact list_type prefix name items l :
  existsb (exact_match name) items = false ->
  scan_items list_type prefix name items l
  = inr (record_items list_type prefix name items l).
Proof.
  revert l.
  induction items as [|y items IH]; intros l H; simpl in *.
  - reflexivity.
  - apply orb_false_iff in H as [Hy H].
    rewrite Hy. now apply IH.
Qed.

(** ** One iteration of [while True] *)

Lemma step_fetch_error name ttq c e :
  fetched c = inl e ->
  step name ttq c
  = (Returns (lt_prefix (at_type c), None, false),
     logger_info ("rule.slack." ++ lt_name (at_type c) ++ "_list_failed") e (after_fetch c)).
Proof.
  destruct c as [[[list_type result_name] prefix] cur rest l w].
  unfold fetched, after_fetch, request_at, step, while_body, lt_name, lt_prefix.
  simpl. intros ->. reflexivity.
Qed.

Lemma step_exact name ttq c pg t :
  fetched c = inr pg ->
  scan_items (lt_name (at_type c)) (lt_prefix (at_type c)) name (results pg) (at_locals c)
  = inl t ->
  step name ttq c = (Returns t, after_fetch c).
Proof.
  destruct c as [[[list_type result_name] prefix] cur rest l w].
  unfold fetched, after_fetch, request_at, step, while_body, lt_name, lt_prefix.
  simpl. intros -> ->. reflexivity.
Qed.

Lemma step_scanned name ttq c pg l' :
  fetched c = inr pg ->
  scan_items (lt_name (at_type c)) (lt_prefix (at_type c)) name (results pg) (at_locals c)
  = inr l' ->
  step name ttq c
  = (if Qgtb (check_time c) ttq then Returns (lt_prefix (at_type c), None, true)
     else if negb (truthy (next_cursor pg)) then Breaks l'
     else Continues (cursor_value (next_cursor pg)) l',
     after_check c).
Proof.
  destruct c as [[[list_type result_name] prefix] cur rest l w].
  unfold fetched, after_fetch, after_check, check_time, request_at, step, while_body,
    lt_name, lt_prefix.
  simpl. intros -> ->.
  destruct (Qgtb _ ttq); [reflexivity|].
  destruct (negb _); reflexivity.
Qed.

(** ** Fuel *)

Lemma while_true_mono name ttq lt fuel :
  forall fuel' cur l w r,
    while_true fuel name ttq lt cur l w = Some r ->
    fuel <= fuel' ->
    while_true fuel' name ttq lt cur l w = Some r.
Proof.
  induction fuel as [|fuel IH]; intros fuel' cur l w r H Hle; simpl in H.
  - discriminate.
  - destruct fuel' as [|fuel']; [lia|].
    simpl.
    destruct (while_body name ttq lt cur l w) as [[t|l'|cur' l'] w']; auto.
    apply IH; [assumption|lia].
Qed.

Lemma after_while_mono name (next next' : Locals -> World -> option (Res Tuple * World)) x x' r :
  (forall l w r, next l w = Some r -> next' l w = Some r) ->
  (forall y, x = Some y -> x' = Some y) ->
  after_while name next x = Some r ->
  after_while name next' x' = Some r.
Proof.
  intros Hnext Hx.
  destruct x as [[[t|l'] w']|]; simpl; [| |discriminate];
    rewrite (Hx _ eq_refl); simpl; auto.
  destruct (found_duplicate l'); auto.
  destruct (id_data l'); auto.
Qed.

Lemma for_list_types_mono name ttq list_types :
  forall fuel fuel' prefix l w r,
    for_list_types fuel name ttq list_types prefix l w = Some r ->
    fuel <= fuel' ->
    for_list_types fuel' name ttq list_types prefix l w = Some r.
Proof.
  induction list_types as [|lt rest IH]; intros fuel fuel' prefix l w r H Hle; simpl in *.
  - assumption.
  - eapply after_while_mono; [| |exact H].
    + intros. eapply IH; eauto.
    + intros. eapply while_true_mono; eauto.
Qed.

Lemma resume_mono name ttq c fuel fuel' r :
  resume fuel name ttq c = Some r ->
  fuel <= fuel' ->
  resume fuel' name ttq c = Some r.
Proof.
  unfold resume. intros H Hle.
  eapply after_while_mono; [| |exact H].
  - intros. eapply for_list_types_mono; eauto.
  - intros. eapply while_true_mono; eauto.
Qed.

(** A result of the rest of the run from a visited configuration is the
    result of the run from the start. *)
Lemma visits_result name ttq start c :
  Visits name ttq start c ->
  forall fuel r, resume fuel name ttq c = Some r ->
  exists fuel', resume fuel' name ttq start = Some r.
Proof.
  induction 1 as [|c cur' l' w' _ IH Hstep|c l' w' lt rest _ IH Hstep Hdup Hid Hlater];
    intros fuel r Hr.
  - eauto.
  - apply (IH (S fuel)).
    unfold resume in *. simpl in *. unfold step in Hstep. rewrite Hstep.
    eapply after_while_mono; [| |exact Hr]; auto.
    intros. eapply for_list_types_mono; eauto.
  - apply (IH (S fuel)).
    apply resume_mono with (fuel' := S fuel) in Hr; [|lia].
    unfold resume in *. simpl in *. unfold step in Hstep. rewrite Hstep, Hlater.
    simpl. rewrite Hdup, Hid. exact Hr.
Qed.

Lemma get_channel_id_with_timeout_resume fuel name timeout w :
  get_channel_id_with_timeout fuel name timeout w
  = resume fuel name (deadline timeout w) (first_config w).
Proof. reflexivity. Qed.

Lemma scans_resolves name timeout w c fuel r :
  Scans name timeout w c ->
  resume fuel name (deadline timeout w) c = Some r ->
  resolves name timeout w r.
Proof.
  intros Hc Hr.
  destruct (visits_result _ _ _ _ Hc _ _ Hr) as [fuel' H].
  exists fuel'. intros fuel'' Hle.
  rewrite get_channel_id_with_timeout_resume.
  eapply resume_mono; eauto.
Qed.

Lemma resume_returns name ttq c fuel t w' :
  step name ttq c = (Returns t, w') ->
  resume (S fuel) name ttq c = Some (Return t, w').
Proof.
  unfold resume, step. intros H. simpl. rewrite H. reflexivity.
Qed.

(** Every iteration sends exactly one request. *)
Lemma step_requests name ttq c flow w' :
  step name ttq c = (flow, w') ->
  requests w' = requests (at_world c) ++ [request_at c].
Proof.
  destruct c as [[[list_type result_name] prefix] cur rest l w].
  unfold Slack.step, Slack.while_body, request_at, lt_name. simpl.
  destruct (client_get env _ _) as [e|pg].
  - intros [= _ <-]. reflexivity.
  - destruct (scan_items _ _ _ _ _) as [t|l'].
    + intros [= _ <-]. reflexivity.
    + destruct (Qgtb _ _); [|destruct (negb _)]; intros [= _ <-]; reflexivity.
Qed.

Lemma record_items_other list_type prefix name items l :
  String.eqb list_type "users" = false ->
  record_items list_type prefix name items l = l.
Proof.
  intros Hlt. unfold record_items.
  induction items as [|c items IH]; simpl; [reflexivity|].
  unfold record_item at 2. rewrite Hlt. exact IH.
Qed.

Lemma scan_items_other list_type prefix name items :
  String.eqb list_type "users" = false ->
  forall l l', scan_items list_type prefix name items l = inr l' -> l' = l.
Proof.
  intros Hlt.
  induction items as [|c items IH]; intros l l'; simpl.
  - now intros [= <-].
  - destruct (exact_match name c); [discriminate|].
    unfold record_item. rewrite Hlt. apply IH.
Qed.

(** An iteration that goes on, to the next page or past the loop, has
    scanned a page without an exact match. *)
Lemma step_scanned_inv name ttq c flow w' :
  step name ttq c = (flow, w') ->
  match flow with
  | Returns _ => True
  | Breaks l' | Continues _ l' =>
      exists pg, fetched c = inr pg /\
        scan_items (lt_name (at_type c)) (lt_prefix (at_type c)) name (results pg)
          (at_locals c) = inr l'
  end.
Proof.
  destruct c as [[[list_type result_name] prefix] cur rest l w].
  unfold Slack.step, Slack.while_body, Slack.fetched, request_at, lt_name, lt_prefix.
  simpl.
  destruct (client_get env _ _) as [e|pg].
  - intros [= <- _]. exact I.
  - destruct (scan_items _ _ _ _ _) as [t|l'] eqn:E.
    + intros [= <- _]. exact I.
    + destruct (Qgtb _ _); [|destruct (negb _)]; intros [= <- _];
        try exact I; exists pg; auto.
Qed.

(** While the run pages through conversations, nothing has been asked of
    the users endpoint and nothing is on record. *)
Lemma scans_list_types name timeout w c :
  Scans name timeout w c ->
  (at_type c = conversations_type /\
   later c = [users_type] /\
   at_locals c = init_locals /\
   exists cursors,
     requests (at_world c) = requests w ++ map (list_request "conversations") cursors)
  \/ (at_type c = users_type /\ later c = []).
Proof.
  induction 1 as [|c cur' l' w' _ IH Hstep|c l' w' lt rest _ IH Hstep Hdup Hid Hlater].
  - left. repeat split. exists []. simpl. now rewrite app_nil_r.
  - destruct IH as [(Ht & Hl & Hloc & cursors & Hreq)|(Ht & Hl)]; [left|right];
      simpl; auto.
    repeat split; auto.
    + destruct (step_scanned_inv _ _ _ _ _ Hstep) as (pg & _ & Hscan).
      rewrite Ht, Hloc in Hscan.
      now apply scan_items_other in Hscan.
    + exists (cursors ++ [at_cursor c]).
      rewrite (step_requests _ _ _ _ _ Hstep), Hreq, map_app, <- app_assoc.
      unfold request_at. rewrite Ht. reflexivity.
  - right. destruct IH as [(Ht & Hl & _)|(Ht & Hl)]; rewrite Hl in Hlater.
    + injection Hlater as <- <-. auto.
    + discriminate.
Qed.

(** Duplicates are only ever recorded among the users. *)
Lemma scans_duplicate_users name timeout w c pg l' :
  Scans name timeout w c ->
  scan_items (lt_name (at_type c)) (lt_prefix (at_type c)) name (results pg) (at_locals c)
  = inr l' ->
  found_duplicate l' = true ->
  at_type c = users_type.
Proof.
  intros Hc Hscan Hdup.
  destruct (scans_list_types _ _ _ _ Hc) as [(Ht & _ & Hloc & _)|(Ht & _)]; [|assumption].
  rewrite Ht, Hloc in Hscan.
  apply scan_items_other in Hscan; [|reflexivity].
  subst l'. discriminate.
Qed.

(** ** Exact name matches *)

(** C1. Whenever the run fetches a page in which some item's name equals
    the query name case-insensitively, the call returns, for the first such
    item of the page, the tuple (prefix of the list type being scanned, that
    item's id, False).  Nothing is assumed of the clock (the deadline may
    have passed) nor of the display names seen so far or later in the page,
    and the world is the one right after the fetch: the clock is not read
    and no further request is sent. *)
Theorem exact_name_match_returns_found name timeout w c pg pre x post :
  Scans name timeout w c ->
  fetched c = inr pg ->
  results pg = pre ++ x :: post ->
  existsb (exact_match name) pre = false ->
  exact_match name x = true ->
  resolves name timeout w
    (Return (lt_prefix (at_type c), Some (item_id x), false), after_fetch c).
Proof.
  intros Hc Hpg Hitems Hpre Hx.
  apply scans_resolves with (c := c) (fuel := 1); [assumption|].
  apply resume_returns.
  apply step_exact with (pg := pg); [assumption|].
  rewrite Hitems. now apply scan_items_exact.
Qed.

(** ** Transport errors *)

(** C2. Whenever a page fetch raises ApiError, in whichever list type, the
    call returns (prefix of that list type, None, False) after logging the
    failure, and the failing request is the last one sent.  While the
    conversations are being fetched this means that every request of the
    call went to the conversations endpoint: the users are not scanned. *)
Theorem transport_error_returns_not_found name timeout w c e :
  Scans name timeout w c ->
  fetched c = inl e ->
  let w' := logger_info ("rule.slack." ++ lt_name (at_type c) ++ "_list_failed") e
              (after_fetch c) in
  resolves name timeout w (Return (lt_prefix (at_type c), None, false), w')
  /\ requests w' = requests (at_world c) ++ [request_at c]
  /\ (lt_name (at_type c) = "conversations" ->
      exists cursors,
        requests w' = requests w ++ map (list_request "conversations") cursors).
Proof.
  intros Hc He w'. split; [|split].
  - apply scans_resolves with (c := c) (fuel := 1); [assumption|].
    apply resume_returns. now apply step_fetch_error.
  - reflexivity.
  - intros Hconv.
    destruct (scans_list_types _ _ _ _ Hc) as [(Ht & _ & _ & cursors & Hreq)|(Ht & _)].
    + exists (cursors ++ [at_cursor c]).
      subst w'. simpl. rewrite Hreq, map_app, <- app_assoc.
      unfold request_at. rewrite Ht. reflexivity.
    + rewrite Ht in Hconv. discriminate.
Qed.

(** ** The shape of the returned tuple *)

Lemma record_item_shaped list_type prefix name c l :
  candidate_shaped l ->
  candidate_shaped (record_item list_type prefix name c l).
Proof.
  unfold record_item, candidate_shaped. intros Hl t.
  destruct (String.eqb list_type "users"); [|apply Hl].
  destruct (display_match name c); [|apply Hl].
  destruct (id_data l) eqn:E; simpl.
  - intros Ht. apply Hl. congruence.
  - intros [= <-]. reflexivity.
Qed.

Lemma scan_items_shaped list_type prefix name items :
  forall l, candidate_shaped l ->
  match scan_items list_type prefix name items l with
  | inl t => snd t = false
  | inr l' => candidate_shaped l'
  end.
Proof.
  induction items as [|c items IH]; intros l Hl; simpl.
  - assumption.
  - destruct (exact_match name c); [reflexivity|].
    apply IH. now apply record_item_shaped.
Qed.

Lemma while_body_shaped name ttq lt cur l w :
  candidate_shaped l ->
  match fst (while_body name ttq lt cur l w) with
  | Returns t => well_shaped t
  | Breaks l' => candidate_shaped l'
  | Continues _ l' => candidate_shaped l'
  end.
Proof.
  intros Hl. destruct lt as [[list_type result_name] prefix].
  unfold Slack.while_body. simpl.
  destruct (client_get env _ _) as [e|pg]; simpl.
  - discriminate.
  - pose proof (scan_items_shaped list_type prefix name (results pg) l Hl) as Hs.
    destruct (scan_items _ _ _ _ _) as [t|l']; simpl.
    + intros Ht. congruence.
    + destruct (Qgtb _ _); simpl; [intros _; reflexivity|].
      destruct (negb _); simpl; assumption.
Qed.

Lemma while_true_shaped name ttq lt fuel :
  forall cur l w x w',
    candidate_shaped l ->
    while_true fuel name ttq lt cur l w = Some (x, w') ->
    match x with
    | inl t => well_shaped t
    | inr l' => candidate_shaped l'
    end.
Proof.
  induction fuel as [|fuel IH]; intros cur l w x w' Hl H; simpl in H.
  - discriminate.
  - pose proof (while_body_shaped name ttq lt cur l w Hl) as Hb.
    destruct (while_body name ttq lt cur l w) as [[t|l1|cur1 l1] w1]; simpl in Hb.
    + injection H as <- <-. assumption.
    + injection H as <- <-. assumption.
    + eapply IH; eauto.
Qed.

Lemma for_list_types_shaped name ttq fuel list_types :
  forall prefix l w t w',
    candidate_shaped l ->
    for_list_types fuel name ttq list_types prefix l w = Some (Return t, w') ->
    well_shaped t.
Proof.
  induction list_types as [|lt rest IH]; intros prefix l w t w' Hl H; simpl in H.
  - destruct prefix; [|discriminate].
    injection H as <- <-. intros _. reflexivity.
  - unfold after_while in H.
    destruct (while_true fuel name ttq lt "" l w) as [[x w1]|] eqn:E; [|discriminate].
    pose proof (while_true_shaped _ _ _ _ _ _ _ _ _ Hl E) as Hx.
    destruct x as [t1|l1].
    + injection H as <- <-. assumption.
    + destruct (found_duplicate l1); [discriminate|].
      destruct (id_data l1) as [t1|] eqn:Eid.
      * injection H as <- <-. intros Ht. rewrite (Hx _ Eid) in Ht. discriminate.
      * eapply IH; eauto.
Qed.

(** C10. Whenever the call returns a tuple (prefix, channel_id, timed_out),
    a timeout comes with no id and an id comes with no timeout. *)
Theorem result_id_excludes_timeout fuel name timeout w prefix channel_id timed_out w' :
  get_channel_id_with_timeout fuel name timeout w
  = Some (Return (prefix, channel_id, timed_out), w') ->
  (timed_out = true -> channel_id = None) /\
  (channel_id <> None -> timed_out = false).
Proof.
  unfold Slack.get_channel_id_with_timeout, read_clock. intros H.
  assert (Hs : well_shaped (prefix, channel_id, timed_out)).
  { eapply for_list_types_shaped; [|exact H].
    intros t. discriminate. }
  unfold well_shaped in Hs. simpl in Hs.
  split; [assumption|].
  intros Hid. destruct timed_out; [|reflexivity].
  now destruct Hid; apply Hs.
Qed.

(** ** The deadline *)

Lemma Qgtb_true a b : Qgtb a b = true <-> (b < a)%Q.
Proof.
  unfold Qgtb. rewrite negb_true_iff, <- not_true_iff_false, Qle_bool_iff.
  split; [apply Qnot_le_lt | apply Qlt_not_le].
Qed.

Lemma Qgtb_false a b : Qgtb a b = false <-> (a <= b)%Q.
Proof.
  unfold Qgtb. rewrite negb_false_iff. apply Qle_bool_iff.
Qed.

Lemma step_timed_out name ttq c pg l' :
  fetched c = inr pg ->
  scan_items (lt_name (at_type c)) (lt_prefix (at_type c)) name (results pg) (at_locals c)
  = inr l' ->
  (ttq < check_time c)%Q ->
  step name ttq c = (Returns (lt_prefix (at_type c), None, true), after_check c).
Proof.
  intros Hpg Hscan Hlate.
  rewrite (step_scanned _ _ _ _ _ Hpg Hscan).
  apply Qgtb_true in Hlate. now rewrite Hlate.
Qed.

Lemma step_exhausted name ttq c pg l' :
  fetched c = inr pg ->
  scan_items (lt_name (at_type c)) (lt_prefix (at_type c)) name (results pg) (at_locals c)
  = inr l' ->
  (check_time c <= ttq)%Q ->
  truthy (next_cursor pg) = false ->
  step name ttq c = (Breaks l', after_check c).
Proof.
  intros Hpg Hscan Hintime Hlast.
  rewrite (step_scanned _ _ _ _ _ Hpg Hscan).
  apply Qgtb_false in Hintime. now rewrite Hintime, Hlast.
Qed.

(** C5. If the clock is past the deadline when it is read after the first
    page, then, that page being fetched without error and holding no exact
    name match, the call returns ("#", None, True); the request for the
    first page of conversations has been sent, and it is the only one. *)
Theorem expired_deadline_times_out_after_first_page name timeout w pg :
  client_get env (length (requests w)) (list_request "conversations" "") = inr pg ->
  existsb (exact_match name) (results pg) = false ->
  (time_time env (clock_reads w) + timeout < time_time env (S (clock_reads w)))%Q ->
  resolves name timeout w
    (Return ("#", None, true),
     {| clock_reads := S (S (clock_reads w));
        requests := requests w ++ [list_request "conversations" ""];
        logged := logged w |}).
Proof.
  intros Hpg Hnone Hlate.
  apply scans_resolves with (c := first_config w) (fuel := 1); [apply visits_start|].
  apply resume_returns.
  apply (step_timed_out name (deadline timeout w) (first_config w) pg
           (record_items "conversations" CHANNEL_PREFIX name (results pg) init_locals)).
  - exact Hpg.
  - now apply scan_items_no_exact.
  - exact Hlate.
Qed.

(** ** Duplicate display names *)

(** A [break] with a duplicate on record raises. *)
Lemma resume_raises name ttq c fuel l' w' :
  step name ttq c = (Breaks l', w') ->
  found_duplicate l' = true ->
  resume (S fuel) name ttq c = Some (Raise (DuplicateDisplayNameError name), w').
Proof.
  unfold Slack.resume, Slack.step. intros H Hdup. simpl. rewrite H. simpl.
  now rewrite Hdup.
Qed.

(** C4, as the code has it. When a page has been scanned without an exact
    match and a duplicate display name is on record, the list type is the
    users' and the clock decides: if it is past the deadline the call
    returns ("@", None, True), raising nothing and returning no candidate;
    if it is not and the page names no next cursor (the users are
    exhausted), the call raises DuplicateDisplayNameError with the query
    name. *)
Theorem recorded_duplicate_then_clock name timeout w c pg l' :
  Scans name timeout w c ->
  fetched c = inr pg ->
  scan_items (lt_name (at_type c)) (lt_prefix (at_type c)) name (results pg) (at_locals c)
  = inr l' ->
  found_duplicate l' = true ->
  at_type c = users_type
  /\
  ((deadline timeout w < check_time c)%Q ->
   resolves name timeout w (Return ("@", None, true), after_check c))
  /\
  ((check_time c <= deadline timeout w)%Q ->
   truthy (next_cursor pg) = false ->
   resolves name timeout w (Raise (DuplicateDisplayNameError name), after_check c)).
Proof.
  intros Hc Hpg Hscan Hdup.
  assert (Husers : at_type c = users_type)
    by (eapply scans_duplicate_users; eauto).
  split; [assumption|split].
  - intros Hlate.
    apply scans_resolves with (c := c) (fuel := 1); [assumption|].
    apply resume_returns.
    replace "@" with (lt_prefix (at_type c)) by now rewrite Husers.
    now apply step_timed_out with (pg := pg) (l' := l').
  - intros Hintime Hlast.
    apply scans_resolves with (c := c) (fuel := 1); [assumption|].
    apply resume_raises with (l' := l'); [|assumption].
    now apply step_exhausted with (pg := pg).
Qed.

(** ** Paging through a whole list *)

Lemma existsb_flat_map_cons name pg pages :
  existsb (exact_match name) (items_of (pg :: pages)) = false ->
  existsb (exact_match name) (results pg) = false /\
  existsb (exact_match name) (items_of pages) = false.
Proof.
  unfold items_of. simpl. rewrite existsb_app. apply orb_false_iff.
Qed.

(** Served all its pages in time and finding no exact match, the loop
    breaks with every item on record. *)
Lemma while_true_serves name ttq lt pages :
  forall fuel cur l w,
    serves ttq lt cur w pages ->
    existsb (exact_match name) (items_of pages) = false ->
    length pages <= fuel ->
    while_true fuel name ttq lt cur l w
    = Some (inr (record_items (lt_name lt) (lt_prefix lt) name (items_of pages) l),
            paged lt cur w pages).
Proof.
  induction pages as [|pg more IH]; intros fuel cur l w Hserves Hnone Hfuel.
  - destruct Hserves.
  - destruct fuel as [|fuel]; [simpl in Hfuel; lia|].
    apply existsb_flat_map_cons in Hnone as [Hpg Hmore].
    destruct Hserves as (Hget & Htime & Hnext).
    pose (c := {| at_type := lt; at_cursor := cur; later := []; at_locals := l;
                  at_world := w |}).
    assert (Hstep : step name ttq c
                    = (if negb (truthy (next_cursor pg))
                       then Breaks (record_items (lt_name lt) (lt_prefix lt) name (results pg) l)
                       else Continues (cursor_value (next_cursor pg))
                              (record_items (lt_name lt) (lt_prefix lt) name (results pg) l),
                       turn_page lt cur w)).
    { rewrite (step_scanned name ttq c pg
                 (record_items (lt_name lt) (lt_prefix lt) name (results pg) l)).
      - change (check_time c)
          with (fst (read_clock env (snd (call_get env (list_request (lt_name lt) cur) w)))).
        rewrite Htime. reflexivity.
      - exact Hget.
      - now apply scan_items_no_exact. }
    unfold Slack.step in Hstep. simpl in Hstep.
    simpl while_true. rewrite Hstep.
    unfold items_of, record_items. simpl. rewrite fold_left_app.
    destruct more as [|pg' more].
    + rewrite Hnext. reflexivity.
    + destruct Hnext as [Hnext Hserves]. rewrite Hnext. simpl negb. cbv iota.
      apply IH; [assumption|assumption|simpl in *; lia].
Qed.

(** ** Display names on record *)

Lemma record_items_no_display list_type prefix name items l :
  existsb (display_match name) items = false ->
  record_items list_type prefix name items l = l.
Proof.
  unfold record_items.
  revert l. induction items as [|c items IH]; intros l H; simpl in *; [reflexivity|].
  apply orb_false_iff in H as [Hc H].
  unfold record_item at 2. rewrite Hc.
  destruct (String.eqb list_type "users"); now apply IH.
Qed.

Lemma record_items_keeps_duplicate list_type prefix name items l :
  found_duplicate l = true ->
  found_duplicate (record_items list_type prefix name items l) = true.
Proof.
  unfold record_items.
  revert l. induction items as [|c items IH]; intros l H; simpl; [assumption|].
  apply IH. unfold record_item.
  destruct (String.eqb list_type "users"); [|assumption].
  destruct (display_match name c); [|assumption].
  destruct (id_data l); simpl; auto.
Qed.

Lemma record_items_second prefix name items l :
  id_data l <> None ->
  existsb (display_match name) items = true ->
  found_duplicate (record_items "users" prefix name items l) = true.
Proof.
  unfold record_items.
  revert l. induction items as [|c items IH]; intros l Hid H; simpl in *; [discriminate|].
  unfold record_item at 2. simpl.
  destruct (display_match name c) eqn:Hc.
  - destruct (id_data l) as [t|] eqn:E; [|congruence].
    now apply record_items_keeps_duplicate.
  - now apply IH.
Qed.

Lemma filter_existsb {A} (f : A -> bool) (items : list A) :
  1 <= length (filter f items) -> existsb f items = true.
Proof.
  induction items as [|c items IH]; simpl; [lia|].
  destruct (f c); simpl; auto.
Qed.

(** Two display names equal to the query, and a duplicate is on record. *)
Lemma record_items_duplicate prefix name items l :
  id_data l = None ->
  2 <= length (filter (display_match name) items) ->
  found_duplicate (record_items "users" prefix name items l) = true.
Proof.
  revert l. induction items as [|c items IH]; intros l Hid H; simpl in *; [lia|].
  unfold record_items. simpl. unfold record_item at 2. simpl.
  destruct (display_match name c) eqn:Hc.
  - rewrite Hid. apply record_items_second; [discriminate|].
    apply filter_existsb. simpl in H. lia.
  - now apply IH.
Qed.

(** The run through both lists when no name matches exactly: the locals
    and the world at the [break] of the users loop. *)
Lemma for_list_types_serves name ttq w channels members fuel :
  serves ttq conversations_type "" w channels ->
  serves ttq users_type "" (paged conversations_type "" w channels) members ->
  existsb (exact_match name) (items_of channels ++ items_of members) = false ->
  length channels + length members <= fuel ->
  for_list_types fuel name ttq LIST_TYPES None init_locals w
  = after_while name
      (fun _ w' => Some (Return ("@", None, false), w'))
      (Some (inr (record_items "users" "@" name (items_of members) init_locals),
             paged users_type "" (paged conversations_type "" w channels) members)).
Proof.
  intros Hch Hmem Hnone Hfuel.
  rewrite existsb_app in Hnone. apply orb_false_iff in Hnone as [Hnc Hnm].
  change (for_list_types fuel name ttq LIST_TYPES None init_locals w)
    with (after_while name
            (fun l w' =>
               after_while name (fun _ w'' => Some (Return ("@", None, false), w''))
                 (while_true fuel name ttq users_type "" l w'))
            (while_true fuel name ttq conversations_type "" init_locals w)).
  rewrite (while_true_serves name ttq _ channels fuel "" init_locals w Hch Hnc)
    by lia.
  rewrite record_items_other by reflexivity.
  cbn [Slack.after_while found_duplicate id_data init_locals].
  rewrite (while_true_serves name ttq _ members fuel "" init_locals _ Hmem Hnm)
    by lia.
  reflexivity.
Qed.

(** C3. When the client serves the conversations and then the users to the
    end within the deadline, no item of either list has the query name
    (case-insensitively) and at least two users have exactly the query as
    their display name, the call raises DuplicateDisplayNameError with the
    query name, in the world reached once the last page of users has been
    scanned; no candidate is returned. *)
Theorem duplicate_display_names_raise name timeout w channels members :
  let w1 := snd (read_clock env w) in
  serves (deadline timeout w) conversations_type "" w1 channels ->
  serves (deadline timeout w) users_type "" (paged conversations_type "" w1 channels)
    members ->
  existsb (exact_match name) (items_of channels ++ items_of members) = false ->
  2 <= length (filter (display_match name) (items_of members)) ->
  resolves name timeout w
    (Raise (DuplicateDisplayNameError name),
     paged users_type "" (paged conversations_type "" w1 channels) members).
Proof.
  intros w1 Hch Hmem Hnone Hdup.
  exists (length channels + length members). intros fuel Hfuel.
  change (get_channel_id_with_timeout fuel name timeout w)
    with (for_list_types fuel name (deadline timeout w) LIST_TYPES None init_locals w1).
  rewrite (for_list_types_serves name _ w1 channels members fuel Hch Hmem Hnone Hfuel).
  simpl. now rewrite record_items_duplicate.
Qed.

(** C6. When the client serves the conversations and then the users to the
    end within the deadline, no item of either list has the query name
    (case-insensitively) and no user has the query as display name, the
    call returns ("@", None, False). *)
Theorem no_match_returns_not_found name timeout w channels members :
  let w1 := snd (read_clock env w) in
  serves (deadline timeout w) conversations_type "" w1 channels ->
  serves (deadline timeout w) users_type "" (paged conversations_type "" w1 channels)
    members ->
  existsb (exact_match name) (items_of channels ++ items_of members) = false ->
  existsb (display_match name) (items_of members) = false ->
  resolves name timeout w
    (Return ("@", None, false),
     paged users_type "" (paged conversations_type "" w1 channels) members).
Proof.
  intros w1 Hch Hmem Hnone Hdisp.
  exists (length channels + length members). intros fuel Hfuel.
  change (get_channel_id_with_timeout fuel name timeout w)
    with (for_list_types fuel name (deadline timeout w) LIST_TYPES None init_locals w1).
  rewrite (for_list_types_serves name _ w1 channels members fuel Hch Hmem Hnone Hfuel).
  simpl. now rewrite record_items_no_display.
Qed.

(** A call ends in one way only. *)
Lemma resolves_functional name timeout w r r' :
  resolves name timeout w r -> resolves name timeout w r' -> r = r'.
Proof.
  intros [fuel H] [fuel' H'].
  specialize (H (Nat.max fuel fuel') (Nat.le_max_l _ _)).
  specialize (H' (Nat.max fuel fuel') (Nat.le_max_r _ _)).
  congruence.
Qed.

Lemma resolves_at name timeout w fuel r :
  get_channel_id_with_timeout fuel name timeout w = Some r ->
  resolves name timeout w r.
Proof.
  intros H. exists fuel. intros fuel' Hle.
  rewrite get_channel_id_with_timeout_resume in *.
  eapply resume_mono; eauto.
Qed.

(** ** The entry point *)

Lemma lstrip_split chars s :
  exists stripped, s = (stripped ++ lstrip chars s)%string /\ all_in chars stripped = true.
Proof.
  induction s as [|a s IH]; simpl.
  - exists "". auto.
  - destruct (mem_char a chars) eqn:E.
    + destruct IH as (stripped & Hs & Hall).
      exists (String a stripped). simpl. rewrite E, Hall. split; [congruence|reflexivity].
    + exists "". auto.
Qed.

Lemma lstrip_head chars s a rest :
  lstrip chars s = String a rest -> mem_char a chars = false.
Proof.
  induction s as [|b s IH]; simpl; [discriminate|].
  destruct (mem_char b chars) eqn:E; [assumption|].
  now intros [= <- _].
Qed.

(** C7. [get_channel_id] runs the resolution with the deadline at the
    clock reading it takes plus 10 seconds, or plus 180 with
    use_async_lookup, and with the name less its leading '#' and '@': the
    name is some run of those two characters followed by the stripped
    name, which starts with neither. *)
Theorem get_channel_id_deadline_and_name fuel name use_async_lookup w :
  get_channel_id fuel name use_async_lookup w
  = for_list_types fuel (strip_channel_name name)
      (time_time env (clock_reads w) + (if use_async_lookup then 180 else 10))%Q
      LIST_TYPES None init_locals (snd (read_clock env w))
  /\ (exists stripped,
        name = (stripped ++ strip_channel_name name)%string /\ all_in "@#" stripped = true)
  /\ (forall a rest, strip_channel_name name = String a rest ->
        a <> "#"%char /\ a <> "@"%char).
Proof.
  split; [|split].
  - destruct use_async_lookup; reflexivity.
  - apply lstrip_split.
  - intros a rest H. apply lstrip_head in H.
    split; intros ->; discriminate.
Qed.

(** ** A single display-name candidate *)

Lemma filter_nil_existsb {A} (f : A -> bool) (items : list A) :
  filter f items = [] -> existsb f items = false.
Proof.
  induction items as [|c items IH]; simpl; [reflexivity|].
  destruct (f c); [discriminate|]. exact IH.
Qed.

Lemma record_items_single prefix name items c :
  forall l,
    id_data l = None ->
    found_duplicate l = false ->
    filter (display_match name) items = [c] ->
    record_items "users" prefix name items l
    = {| id_data := Some (prefix, Some (item_id c), false); found_duplicate := false |}.
Proof.
  induction items as [|y items IH]; intros l Hid Hdup H; simpl in H; [discriminate|].
  unfold record_items. simpl. unfold record_item at 2. simpl.
  destruct (display_match name y) eqn:Hy.
  - injection H as -> Hrest.
    rewrite Hid, Hdup.
    apply record_items_no_display. now apply filter_nil_existsb.
  - now apply IH.
Qed.

(** When the client serves both lists to the end within the deadline, no
    item has the query name and exactly one user has the query as display
    name, the call returns that user's id with the "@" prefix, once the
    users are exhausted. *)
Theorem unique_display_name_is_returned name timeout w channels members c :
  let w1 := snd (read_clock env w) in
  serves (deadline timeout w) conversations_type "" w1 channels ->
  serves (deadline timeout w) users_type "" (paged conversations_type "" w1 channels)
    members ->
  existsb (exact_match name) (items_of channels ++ items_of members) = false ->
  filter (display_match name) (items_of members) = [c] ->
  resolves name timeout w
    (Return ("@", Some (item_id c), false),
     paged users_type "" (paged conversations_type "" w1 channels) members).
Proof.
  intros w1 Hch Hmem Hnone Hone.
  exists (length channels + length members). intros fuel Hfuel.
  change (get_channel_id_with_timeout fuel name timeout w)
    with (for_list_types fuel name (deadline timeout w) LIST_TYPES None init_locals w1).
  rewrite (for_list_types_serves name _ w1 channels members fuel Hch Hmem Hnone Hfuel).
  rewrite (record_items_single "@" name _ c init_locals eq_refl eq_refl Hone).
  reflexivity.
Qed.

(** ** Leading prefix characters *)

Lemma lstrip_all_in chars p s :
  all_in chars p = true ->
  lstrip chars (p ++ s) = lstrip chars s.
Proof.
  induction p as [|a p IH]; simpl; [reflexivity|].
  intros H. apply andb_true_iff in H as [Ha Hp].
  rewrite Ha. now apply IH.
Qed.

(** Whatever run of '#' and '@' is put in front of a name, [get_channel_id]
    does the same: "#general", "@general" and "general" resolve alike. *)
Theorem get_channel_id_ignores_leading_prefixes fuel p name use_async_lookup w :
  all_in "@#" p = true ->
  get_channel_id fuel (p ++ name) use_async_lookup w
  = get_channel_id fuel name use_async_lookup w.
Proof.
  intros Hp. unfold Slack.get_channel_id, strip_channel_name.
  change strip_channel_chars with "@#".
  now rewrite (lstrip_all_in "@#" p name Hp).
Qed.

(** ** What a run asks of the client *)

Lemma truthy_nonempty c :
  truthy c = true -> cursor_value c <> "".
Proof.
  destruct c as [x|]; simpl; [|discriminate].
  intros H Hx. subst x. discriminate.
Qed.

(** How one iteration leaves the world, case by case. *)
Lemma while_body_cases name ttq lt cur l w :
  let w1 := snd (call_get env (list_request (lt_name lt) cur) w) in
  let w2 := snd (read_clock env w1) in
  match while_body name ttq lt cur l w with
  | (Returns t, w') =>
      (requests w' = requests w1 /\ clock_reads w' = clock_reads w) \/
      (w' = w2 /\ Qgtb (time_time env (clock_reads w)) ttq = true)
  | (Breaks _, w') =>
      w' = w2 /\ Qgtb (time_time env (clock_reads w)) ttq = false
  | (Continues cur' _, w') =>
      w' = w2 /\ Qgtb (time_time env (clock_reads w)) ttq = false /\ cur' <> ""
  end.
Proof.
  destruct lt as [[list_type result_name] prefix].
  unfold Slack.while_body, lt_name. simpl.
  destruct (client_get env _ _) as [e|pg].
  - left. split; reflexivity.
  - destruct (scan_items _ _ _ _ _) as [t|l'].
    + left. split; reflexivity.
    + destruct (Qgtb _ ttq) eqn:Hlate.
      * right. split; reflexivity.
      * destruct (truthy (next_cursor pg)) eqn:Hc; simpl.
        -- repeat split. now apply truthy_nonempty.
        -- repeat split.
Qed.

Lemma while_true_requests name ttq lt fuel :
  forall cur l w x w',
    while_true fuel name ttq lt cur l w = Some (x, w') ->
    exists cursors,
      requests w' = requests w ++ map (list_request (lt_name lt)) (cur :: cursors)
      /\ Forall (fun c => c <> "") cursors
      /\ match x with
         | inl _ => clock_reads w' = clock_reads w + length cursors
                    \/ clock_reads w' = S (clock_reads w + length cursors)
         | inr _ => clock_reads w' = S (clock_reads w + length cursors)
         end.
Proof.
  induction fuel as [|fuel IH]; intros cur l w x w' H; simpl in H; [discriminate|].
  pose proof (while_body_cases name ttq lt cur l w) as Hb. simpl in Hb.
  destruct (while_body name ttq lt cur l w) as [[t|l1|cur1 l1] w1].
  - injection H as <- <-. exists []. simpl.
    destruct Hb as [[Hr Hc]|[-> _]]; simpl; rewrite ?Hr, ?Hc, ?Nat.add_0_r; auto.
  - injection H as <- <-. exists []. simpl.
    destruct Hb as [-> _]. simpl. rewrite Nat.add_0_r. auto.
  - destruct Hb as (-> & _ & Hcur1).
    destruct (IH _ _ _ _ _ H) as (cursors & Hreq & Hall & Hclock).
    exists (cur1 :: cursors). simpl in *.
    rewrite Hreq, <- app_assoc. repeat split; auto.
    rewrite <- !Nat.add_succ_comm. exact Hclock.
Qed.

(** The requests of a call go to the conversations first, from the empty
    cursor, then to the users, again from the empty cursor; every further
    request of a list carries a non-empty cursor, and every request has
    limit 1000. *)
Theorem requests_conversations_then_users fuel name timeout w r w' :
  get_channel_id_with_timeout fuel name timeout w = Some (r, w') ->
  exists channels users,
    requests w'
    = requests w ++ map (list_request "conversations") ("" :: channels)
                 ++ map (list_request "users") users
    /\ (users = [] \/ exists more, users = "" :: more)
    /\ Forall (fun c => c <> "") channels
    /\ Forall (fun c => c <> "") (tl users)
    /\ Forall (fun q => limit q = 1000%Z) (skipn (length (requests w)) (requests w')).
Proof.
  intros H.
  assert (Hshape : exists channels users,
             requests w'
             = requests w ++ map (list_request "conversations") ("" :: channels)
                          ++ map (list_request "users") users
             /\ (users = [] \/ exists more, users = "" :: more)
             /\ Forall (fun c => c <> "") channels
             /\ Forall (fun c => c <> "") (tl users)).
  { change (get_channel_id_with_timeout fuel name timeout w)
      with (after_while name
              (fun l w2 =>
                 after_while name (fun _ w3 => Some (Return ("@", None, false), w3))
                   (while_true fuel name (deadline timeout w) users_type "" l w2))
              (while_true fuel name (deadline timeout w) conversations_type ""
                 init_locals (snd (read_clock env w)))) in H.
    destruct (while_true fuel name (deadline timeout w) conversations_type "" _ _)
      as [[x w1]|] eqn:E1; [|discriminate].
    destruct (while_true_requests _ _ _ _ _ _ _ _ _ E1) as (cs & Hreq1 & Hall1 & _).
    simpl in Hreq1.
    assert (Hdone : requests w' = requests w1 ->
                    exists channels users,
                      requests w'
                      = requests w ++ map (list_request "conversations") ("" :: channels)
                                   ++ map (list_request "users") users
                      /\ (users = [] \/ exists more, users = "" :: more)
                      /\ Forall (fun c => c <> "") channels
                      /\ Forall (fun c => c <> "") (tl users)).
    { intros ->. exists cs, []. simpl. rewrite app_nil_r. auto. }
    simpl in H.
    destruct x as [t|l1].
    - injection H as _ <-. now apply Hdone.
    - destruct (found_duplicate l1); [injection H as _ <-; now apply Hdone|].
      destruct (id_data l1); [injection H as _ <-; now apply Hdone|].
      destruct (while_true fuel name (deadline timeout w) users_type "" l1 w1)
        as [[y w2]|] eqn:E2; [|discriminate].
      destruct (while_true_requests _ _ _ _ _ _ _ _ _ E2) as (us & Hreq2 & Hall2 & _).
      assert (Hw : requests w' = requests w2).
      { simpl in H. destruct y as [t|l2]; [now injection H as _ <-|].
        destruct (found_duplicate l2); [now injection H as _ <-|].
        destruct (id_data l2); now injection H as _ <-. }
      exists cs, ("" :: us). rewrite Hw, Hreq2, Hreq1, <- app_assoc.
      repeat split; eauto. }
  destruct Hshape as (channels & users & Hreq & Hus & Hch & Htl).
  exists channels, users. repeat split; auto.
  rewrite Hreq, skipn_app, skipn_all, Nat.sub_diag. simpl skipn.
  apply Forall_cons; [reflexivity|].
  apply Forall_app. split; apply Forall_map, Forall_forall; reflexivity.
Qed.

Lemma while_true_asked name ttq lt fuel cur l w x w' :
  while_true fuel name ttq lt cur l w = Some (x, w') ->
  exists k,
    length (requests w') = S (length (requests w) + k)
    /\ match x with
       | inl _ => clock_reads w' = clock_reads w + k \/ clock_reads w' = S (clock_reads w + k)
       | inr _ => clock_reads w' = S (clock_reads w + k)
       end.
Proof.
  intros H.
  destruct (while_true_requests _ _ _ _ _ _ _ _ _ H) as (cursors & Hreq & _ & Hclock).
  exists (length cursors). split; [|exact Hclock].
  rewrite Hreq, length_app, length_map. simpl. lia.
Qed.

(** The clock is read once when the call starts and once after each page
    scanned to its end, and at no other time: the readings number one more
    than the requests, or as many when the last request failed or its page
    held the name. *)
Theorem clock_is_read_at_page_boundaries fuel name timeout w r w' :
  get_channel_id_with_timeout fuel name timeout w = Some (r, w') ->
  let asked := length (requests w') - length (requests w) in
  1 <= asked
  /\ (clock_reads w' = clock_reads w + asked \/ clock_reads w' = S (clock_reads w + asked)).
Proof.
  intros H.
  change (get_channel_id_with_timeout fuel name timeout w)
    with (after_while name
            (fun l w2 =>
               after_while name (fun _ w3 => Some (Return ("@", None, false), w3))
                 (while_true fuel name (deadline timeout w) users_type "" l w2))
            (while_true fuel name (deadline timeout w) conversations_type ""
               init_locals (snd (read_clock env w)))) in H.
  destruct (while_true fuel name (deadline timeout w) conversations_type "" _ _)
    as [[x w1]|] eqn:E1; [|discriminate].
  destruct (while_true_asked _ _ _ _ _ _ _ _ _ E1) as (k1 & Hreq1 & Hclock1).
  simpl in Hreq1, Hclock1, H.
  assert (Hdone : w' = w1 ->
                  let asked := length (requests w') - length (requests w) in
                  1 <= asked /\
                  (clock_reads w' = clock_reads w + asked
                   \/ clock_reads w' = S (clock_reads w + asked))).
  { intros ->. simpl. destruct x; lia. }
  destruct x as [t|l1].
  - injection H as _ <-. now apply Hdone.
  - destruct (found_duplicate l1); [injection H as _ <-; now apply Hdone|].
    destruct (id_data l1); [injection H as _ <-; now apply Hdone|].
    destruct (while_true fuel name (deadline timeout w) users_type "" l1 w1)
      as [[y w2]|] eqn:E2; [|discriminate].
    destruct (while_true_asked _ _ _ _ _ _ _ _ _ E2) as (k2 & Hreq2 & Hclock2).
    assert (Hw : w' = w2).
    { simpl in H. destruct y as [t|l2]; [now injection H as _ <-|].
      destruct (found_duplicate l2); [now injection H as _ <-|].
      destruct (id_data l2); now injection H as _ <-. }
    subst w'. simpl. destruct y; lia.
Qed.

(** ** Timeouts are real *)

Lemma while_body_timed_out name ttq lt cur l w :
  candidate_shaped l ->
  match while_body name ttq lt cur l w with
  | (Returns t, w') =>
      snd t = true -> (ttq < time_time env (pred (clock_reads w')))%Q
  | _ => True
  end.
Proof.
  intros Hl. destruct lt as [[list_type result_name] prefix].
  unfold Slack.while_body. simpl.
  destruct (client_get env _ _) as [e|pg]; simpl.
  - discriminate.
  - pose proof (scan_items_shaped list_type prefix name (results pg) l Hl) as Hs.
    destruct (scan_items _ _ _ _ _) as [t|l']; simpl.
    + congruence.
    + destruct (Qgtb _ ttq) eqn:Hlate; simpl.
      * intros _. now apply Qgtb_true.
      * destruct (negb _); exact I.
Qed.

Lemma while_true_timed_out name ttq lt fuel :
  forall cur l w t w',
    candidate_shaped l ->
    while_true fuel name ttq lt cur l w = Some (inl t, w') ->
    snd t = true -> (ttq < time_time env (pred (clock_reads w')))%Q.
Proof.
  induction fuel as [|fuel IH]; intros cur l w t w' Hl H; simpl in H; [discriminate|].
  pose proof (while_body_timed_out name ttq lt cur l w Hl) as Hb.
  pose proof (while_body_shaped name ttq lt cur l w Hl) as Hs.
  destruct (while_body name ttq lt cur l w) as [[t1|l1|cur1 l1] w1]; simpl in Hs.
  - injection H as <- <-. exact Hb.
  - discriminate.
  - eapply IH; eauto.
Qed.

(** A result with timed_out set is only ever returned right after a clock
    reading that is past the deadline. *)
Theorem timed_out_means_deadline_passed fuel name timeout w prefix channel_id w' :
  get_channel_id_with_timeout fuel name timeout w
  = Some (Return (prefix, channel_id, true), w') ->
  (time_time env (clock_reads w) + timeout < time_time env (pred (clock_reads w')))%Q.
Proof.
  intros H.
  change (get_channel_id_with_timeout fuel name timeout w)
    with (after_while name
            (fun l w2 =>
               after_while name (fun _ w3 => Some (Return ("@", None, false), w3))
                 (while_true fuel name (deadline timeout w) users_type "" l w2))
            (while_true fuel name (deadline timeout w) conversations_type ""
               init_locals (snd (read_clock env w)))) in H.
  assert (Hinit : candidate_shaped init_locals) by (intros t; discriminate).
  destruct (while_true fuel name (deadline timeout w) conversations_type "" _ _)
    as [[x w1]|] eqn:E1; [|discriminate].
  pose proof (while_true_shaped _ _ _ _ _ _ _ _ _ Hinit E1) as Hx.
  simpl in H. destruct x as [t|l1].
  - injection H as -> <-.
    now apply (while_true_timed_out _ _ _ _ _ _ _ _ _ Hinit E1).
  - destruct (found_duplicate l1); [discriminate|].
    destruct (id_data l1) as [t|] eqn:Eid.
    + injection H as -> <-. now apply Hx in Eid.
    + destruct (while_true fuel name (deadline timeout w) users_type "" l1 w1)
        as [[y w2]|] eqn:E2; [|discriminate].
      pose proof (while_true_shaped _ _ _ _ _ _ _ _ _ Hx E2) as Hy.
      simpl in H. destruct y as [t|l2].
      * injection H as -> <-.
        now apply (while_true_timed_out _ _ _ _ _ _ _ _ _ Hx E2).
      * destruct (found_duplicate l2); [discriminate|].
        destruct (id_data l2) as [t|] eqn:Eid2; [|discriminate].
        injection H as -> <-. now apply Hy in Eid2.
Qed.

(** ** The deadline bounds the run *)

Lemma while_true_bounded name ttq lt n0 len0 K :
  (forall m, n0 + K <= m -> Qgtb (time_time env m) ttq = true) ->
  forall fuel cur l w j,
    clock_reads w = S (n0 + j) ->
    length (requests w) = len0 + j ->
    j < K ->
    K - j <= fuel ->
    exists x w',
      while_true fuel name ttq lt cur l w = Some (x, w')
      /\ match x with
         | inl _ => length (requests w') <= len0 + K
         | inr _ => exists j', clock_reads w' = S (n0 + j')
                               /\ length (requests w') = len0 + j' /\ j' < K
         end.
Proof.
  intros Hlate.
  induction fuel as [|fuel IH]; intros cur l w j Hclock Hlen Hj Hfuel; [lia|].
  simpl.
  pose proof (while_body_cases name ttq lt cur l w) as Hb. simpl in Hb.
  assert (Hnext : Qgtb (time_time env (clock_reads w)) ttq = false -> S j < K).
  { intros Hin. destruct (Nat.lt_ge_cases (S j) K) as [|Hge]; [assumption|].
    rewrite Hlate in Hin by lia. discriminate. }
  destruct (while_body name ttq lt cur l w) as [[t|l1|cur1 l1] w1].
  - exists (inl t), w1. split; [reflexivity|].
    destruct Hb as [[Hr _]|[-> _]]; simpl in *; rewrite ?Hr, length_app, Hlen;
      simpl; lia.
  - exists (inr l1), w1. split; [reflexivity|].
    destruct Hb as [-> Hin]. exists (S j). simpl.
    rewrite length_app, Hlen, Hclock. simpl. repeat split; try lia. now apply Hnext.
  - destruct Hb as (-> & Hin & _).
    apply (IH cur1 l1 _ (S j)); simpl.
    + rewrite Hclock. lia.
    + rewrite length_app, Hlen. simpl. lia.
    + now apply Hnext.
    + lia.
Qed.

(** If from the [K]-th reading after the first on the clock is past the
    deadline, the call ends, whatever the client answers: with fuel [K] or
    more it gives one and the same result, having sent at most [K]
    requests. *)
Theorem deadline_bounds_the_run name timeout w K :
  1 <= K ->
  (forall m, clock_reads w + K <= m -> (deadline timeout w < time_time env m)%Q) ->
  exists r w',
    (forall fuel, K <= fuel -> get_channel_id_with_timeout fuel name timeout w = Some (r, w'))
    /\ length (requests w') <= length (requests w) + K.
Proof.
  intros HK Hlate.
  assert (Hlate' : forall m, clock_reads w + K <= m ->
                             Qgtb (time_time env m) (deadline timeout w) = true).
  { intros m Hm. apply Qgtb_true. now apply Hlate. }
  assert (Hrun : exists r w',
             get_channel_id_with_timeout K name timeout w = Some (r, w')
             /\ length (requests w') <= length (requests w) + K).
  { change (get_channel_id_with_timeout K name timeout w)
      with (after_while name
              (fun l w2 =>
                 after_while name (fun _ w3 => Some (Return ("@", None, false), w3))
                   (while_true K name (deadline timeout w) users_type "" l w2))
              (while_true K name (deadline timeout w) conversations_type ""
                 init_locals (snd (read_clock env w)))).
    destruct (while_true_bounded name (deadline timeout w) conversations_type
                (clock_reads w) (length (requests w)) K Hlate'
                K "" init_locals (snd (read_clock env w)) 0)
      as (x & w1 & -> & Hx); simpl; try lia.
    destruct x as [t|l1]; simpl; [eauto|].
    destruct Hx as (j1 & Hc1 & Hl1 & Hj1).
    destruct (found_duplicate l1); [eexists _, _; split; [reflexivity|lia]|].
    destruct (id_data l1); [eexists _, _; split; [reflexivity|lia]|].
    destruct (while_true_bounded name (deadline timeout w) users_type
                (clock_reads w) (length (requests w)) K Hlate'
                K "" l1 w1 j1)
      as (y & w2 & -> & Hy); simpl; try lia.
    destruct y as [t|l2]; simpl; [eauto|].
    destruct Hy as (j2 & Hc2 & Hl2 & Hj2).
    destruct (found_duplicate l2); [eexists _, _; split; [reflexivity|lia]|].
    destruct (id_data l2); eexists _, _; (split; [reflexivity|lia]). }
  destruct Hrun as (r & w' & Hrun & Hlen).
  exists r, w'. split; [|assumption].
  intros fuel Hfuel.
  rewrite get_channel_id_with_timeout_resume in *.
  eapply resume_mono; eauto.
Qed.

(** ** Where a returned id comes from *)

Lemma served_in_grows w0 w w' list_name c more :
  requests w' = requests w ++ more ->
  served_in w0 w list_name c -> served_in w0 w' list_name c.
Proof.
  intros Hreq (n & cur & pg & Hn & Hnth & Hget & Hin).
  exists n, cur, pg. repeat split; auto.
  rewrite Hreq. rewrite nth_error_app1; [assumption|].
  apply nth_error_Some. congruence.
Qed.

Lemma scan_items_found list_type prefix name items :
  forall l t,
    scan_items list_type prefix name items l = inl t ->
    exists c, In c items /\ exact_match name c = true
              /\ t = (prefix, Some (item_id c), false).
Proof.
  induction items as [|y items IH]; intros l t; simpl; [discriminate|].
  destruct (exact_match name y) eqn:Hy.
  - intros [= <-]. exists y. auto.
  - intros H. destruct (IH _ _ H) as (c & Hin & Hc & Ht). exists c. auto.
Qed.

Lemma scan_items_candidate (P : Item -> Prop) lt name items :
  (lt = conversations_type \/ lt = users_type) ->
  (lt = users_type -> forall c, In c items -> P c) ->
  forall l l',
    candidate_from P name l ->
    scan_items (lt_name lt) (lt_prefix lt) name items l = inr l' ->
    candidate_from P name l'.
Proof.
  intros [->| ->] HP.
  - intros l l' Hl H. apply scan_items_other in H; [|reflexivity]. now subst.
  - specialize (HP eq_refl).
    induction items as [|y items IH]; intros l l' Hl; simpl.
    + now intros [= <-].
    + destruct (exact_match name y); [discriminate|].
      apply IH; [intros c Hc; apply HP; now right|].
      unfold record_item. simpl.
      destruct (display_match name y) eqn:Hy; [|assumption].
      destruct (id_data l) as [t0|] eqn:E; intros t; simpl.
      * intros Ht. apply Hl. congruence.
      * intros [= <-]. exists y. repeat split; auto. apply HP. now left.
Qed.

Lemma while_true_provenance name ttq lt w0 fuel :
  (lt = conversations_type \/ lt = users_type) ->
  forall cur l w x w',
    length (requests w0) <= length (requests w) ->
    candidate_from (served_in w0 w "users") name l ->
    while_true fuel name ttq lt cur l w = Some (x, w') ->
    (exists more, requests w' = requests w ++ more)
    /\ match x with
       | inl (p, Some id, _) =>
           exists c, served_in w0 w' (lt_name lt) c /\ exact_match name c = true
                     /\ id = item_id c /\ p = lt_prefix lt
       | inl (_, None, _) => True
       | inr l' => candidate_from (served_in w0 w' "users") name l'
       end.
Proof.
  intros Hlt.
  induction fuel as [|fuel IH]; intros cur l w x w' Hlen Hl H; simpl in H; [discriminate|].
  assert (Hbody :
    match while_body name ttq lt cur l w with
    | (flow, w1) =>
        (exists more, requests w1 = requests w ++ more)
        /\ match flow with
           | Returns (p, Some id, _) =>
               exists c, served_in w0 w1 (lt_name lt) c /\ exact_match name c = true
                         /\ id = item_id c /\ p = lt_prefix lt
           | Returns (_, None, _) => True
           | Breaks l' | Continues _ l' =>
               candidate_from (served_in w0 w1 "users") name l'
           end
    end).
  { assert (Hlt' := Hlt).
    destruct lt as [[list_type result_name] prefix].
    unfold Slack.while_body. simpl.
    destruct (client_get env (length (requests w)) (list_request list_type cur))
      as [e|pg] eqn:Hget.
    - split; [eexists; reflexivity|exact I].
    - set (w1 := {| clock_reads := clock_reads w;
                    requests := requests w ++ [list_request list_type cur];
                    logged := logged w |}).
      assert (Hserved : forall c, In c (results pg) -> served_in w0 w1 list_type c).
      { intros c Hc. exists (length (requests w)), cur, pg. repeat split; auto.
        simpl. rewrite nth_error_app2, Nat.sub_diag by lia. reflexivity. }
      assert (Hl1 : candidate_from (served_in w0 w1 "users") name l).
      { intros t Ht. destruct (Hl t Ht) as (c & Hc & Hrest).
        exists c. split; [|assumption].
        eapply served_in_grows; [|exact Hc]. reflexivity. }
      destruct (scan_items list_type prefix name (results pg) l) as [t|l'] eqn:Hscan.
      + split; [eexists; reflexivity|].
        destruct (scan_items_found _ _ _ _ _ _ Hscan) as (c & Hin & Hc & ->).
        exists c. repeat split; auto.
      + assert (Hl' : candidate_from (served_in w0 w1 "users") name l').
        { apply (scan_items_candidate _ (list_type, result_name, prefix) name
                   (results pg) Hlt') with (l := l); auto.
          intros [= -> _ _]. exact Hserved. }
        assert (Hl2 : candidate_from
                        (served_in w0 (snd (read_clock env w1)) "users") name l').
        { intros t Ht. destruct (Hl' t Ht) as (c & Hc & Hrest).
          exists c. split; [|assumption].
          eapply served_in_grows; [|exact Hc]. simpl. now rewrite app_nil_r. }
        destruct (Qgtb _ ttq); [split; [eexists; reflexivity|exact I]|].
        destruct (negb _); (split; [eexists; reflexivity|exact Hl2]). }
  destruct (while_body name ttq lt cur l w) as [[t|l1|cur1 l1] w1];
    destruct Hbody as [[more Hmore] Hflow].
  - injection H as <- <-. split; [eauto|exact Hflow].
  - injection H as <- <-. split; [eauto|exact Hflow].
  - destruct (IH cur1 l1 w1 x w') as [[more' Hmore'] Hx]; auto.
    + rewrite Hmore, length_app. lia.
    + split.
      * exists (more ++ more'). now rewrite Hmore', Hmore, app_assoc.
      * exact Hx.
Qed.

(** An id the call returns is the id of an item that the client served in
    answer to one of the call's requests: a channel of that name with
    prefix "#", or a user of that name or displayed as the query with
    prefix "@". *)
Theorem returned_id_was_served fuel name timeout w prefix id timed_out w' :
  get_channel_id_with_timeout fuel name timeout w
  = Some (Return (prefix, Some id, timed_out), w') ->
  exists list_name c,
    served_in w w' list_name c /\ item_id c = id /\
    ((list_name = "conversations" /\ prefix = "#" /\ exact_match name c = true) \/
     (list_name = "users" /\ prefix = "@" /\
      (exact_match name c = true \/ display_match name c = true))).
Proof.
  intros H.
  change (get_channel_id_with_timeout fuel name timeout w)
    with (after_while name
            (fun l w2 =>
               after_while name (fun _ w3 => Some (Return ("@", None, false), w3))
                 (while_true fuel name (deadline timeout w) users_type "" l w2))
            (while_true fuel name (deadline timeout w) conversations_type ""
               init_locals (snd (read_clock env w)))) in H.
  destruct (while_true fuel name (deadline timeout w) conversations_type "" _ _)
    as [[x w1]|] eqn:E1; [|discriminate].
  assert (Hinit : candidate_from (served_in w (snd (read_clock env w)) "users") name
                    init_locals)
    by (intros t Ht; discriminate).
  destruct (while_true_provenance name (deadline timeout w) conversations_type w fuel
              (or_introl eq_refl) "" init_locals (snd (read_clock env w)) x w1
              (Nat.le_refl _) Hinit E1)
    as [[more1 Hmore1] Hx].
  simpl in H. destruct x as [t|l1].
  - injection H as -> <-.
    destruct Hx as (c & Hc & Hexact & -> & ->).
    exists "conversations", c. repeat split; auto.
  - destruct (found_duplicate l1); [discriminate|].
    destruct (id_data l1) as [t|] eqn:Eid.
    + injection H as -> <-.
      destruct (Hx _ Eid) as (c & Hc & Hdisp & [= -> -> _]).
      exists "users", c. repeat split; auto.
    + destruct (while_true fuel name (deadline timeout w) users_type "" l1 w1)
        as [[y w2]|] eqn:E2; [|discriminate].
      assert (Hlen : length (requests w) <= length (requests w1)).
      { rewrite Hmore1, length_app. simpl. lia. }
      destruct (while_true_provenance name _ users_type w fuel (or_intror eq_refl)
                  _ _ _ _ _ Hlen Hx E2)
        as [[more2 Hmore2] Hy].
      simpl in H. destruct y as [t|l2].
      * injection H as -> <-.
        destruct Hy as (c & Hc & Hexact & -> & ->).
        exists "users", c. repeat split; auto.
      * destruct (found_duplicate l2); [discriminate|].
        destruct (id_data l2) as [t|] eqn:Eid2; [|discriminate].
        injection H as -> <-.
        destruct (Hy _ Eid2) as (c & Hc & Hdisp & [= -> -> _]).
        exists "users", c. repeat split; auto.
Qed.

End ResolverFacts.

(** * Properties of the alert notification *)

Section AlertFacts.

Import Messages Alerts.

(** The statuses that have a color. *)
Lemma incident_color_statuses status :
  get incident_colors status = None <-> ~ In status ["Resolved"; "Warning"; "Critical"].
Proof.
  unfold get, incident_colors. simpl.
  destruct (String.eqb_spec status "Resolved") as [E|N1];
    [split; [discriminate|intros H; elim H; simpl; auto]|].
  destruct (String.eqb_spec status "Warning") as [E|N2];
    [split; [discriminate|intros H; elim H; simpl; auto]|].
  destruct (String.eqb_spec status "Critical") as [E|N3];
    [split; [discriminate|intros H; elim H; simpl; auto]|].
  split; [|reflexivity]. intros _ [E|[E|[E|[]]]]; congruence.
Qed.

(** C9, as the code has it.  [send_incident_alert_notification] catches two
    exceptions and no other.  When the lookup of the integration raises
    DoesNotExist the call returns None with nothing posted and nothing
    logged.  When the integration, the attachment and the access token are
    there, the message is posted once to /chat.postMessage with timeout 5:
    the call returns None if the post succeeds, returns None after logging
    the error under rule.fail.slack_post if the post raises ApiError, and
    lets any other exception of the post out.  Everything else reaches the
    caller with nothing posted and nothing logged: any other exception of
    the lookup, an exception of [incident_attachment_info], the KeyError of
    [build_incident_attachment] for a status other than Resolved, Warning
    and Critical, and the KeyError of [metadata["access_token"]] when the
    integration has no access token. *)
Theorem alert_notification_outcomes (Timestamp : Type) (format_timestamp : Timestamp -> string)
  (aenv : AlertEnv Timestamp) action incident metric_value method o :
  (objects_get aenv (integration_id action) (organization incident) = Raise DoesNotExist ->
   send_incident_alert_notification format_timestamp aenv action incident metric_value method o
   = (ReturnNone, o))
  /\
  (forall e,
     objects_get aenv (integration_id action) (organization incident) = Raise e ->
     e <> DoesNotExist ->
     send_incident_alert_notification format_timestamp aenv action incident metric_value method o
     = (RaiseExn e, o))
  /\
  (forall integration,
     objects_get aenv (integration_id action) (organization incident) = Return integration ->
     (forall e,
        incident_attachment_info aenv incident metric_value action method = Raise e ->
        send_incident_alert_notification format_timestamp aenv action incident metric_value
          method o
        = (RaiseExn e, o))
     /\
     (forall data,
        incident_attachment_info aenv incident metric_value action method = Return data ->
        (~ In (info_status data) ["Resolved"; "Warning"; "Critical"] ->
         send_incident_alert_notification format_timestamp aenv action incident metric_value
           method o
         = (RaiseBuiltin (KeyError (info_status data)), o))
        /\
        (In (info_status data) ["Resolved"; "Warning"; "Critical"] ->
         get (metadata integration) "access_token" = None ->
         send_incident_alert_notification format_timestamp aenv action incident metric_value
           method o
         = (RaiseBuiltin (KeyError "access_token"), o))
        /\
        (forall attachment access_token,
           build_incident_attachment Timestamp format_timestamp data = Ok attachment ->
           get (metadata integration) "access_token" = Some access_token ->
           let payload := {| token := access_token;
                             channel := target_identifier action;
                             attachments := json_dumps aenv [attachment] |} in
           let posted := posts o ++ [("/chat.postMessage", payload, 5%Z)] in
           send_incident_alert_notification format_timestamp aenv action incident metric_value
             method o
           = match client_post aenv (length (posts o)) "/chat.postMessage" payload 5%Z with
             | Return _ => (ReturnNone, {| posts := posted; post_log := post_log o |})
             | Raise (ApiError msg) =>
                 (ReturnNone,
                  {| posts := posted;
                     post_log := post_log o ++ [("rule.fail.slack_post", msg)] |})
             | Raise e => (RaiseExn e, {| posts := posted; post_log := post_log o |})
             end))).
Proof.
  unfold send_incident_alert_notification, call_post.
  split; [|split].
  - intros ->. reflexivity.
  - intros e -> Hne. destruct e; try reflexivity. congruence.
  - intros integration ->. split.
    + intros e ->. reflexivity.
    + intros data ->. split; [|split].
      * intros Hnot. apply incident_color_statuses in Hnot.
        unfold Messages.build_incident_attachment. rewrite Hnot. reflexivity.
      * intros Hin Hno.
        unfold Messages.build_incident_attachment.
        destruct (get incident_colors (info_status data)) as [c|] eqn:Ec.
        -- rewrite Hno. reflexivity.
        -- apply incident_color_statuses in Ec. contradiction.
      * intros attachment access_token -> ->. cbv zeta.
        destruct (client_post aenv _ _ _ _) as [[]|e]; [reflexivity|].
        destruct e; reflexivity.
Qed.

(** C9 fails as stated: the integration is there with its access token,
    the incident is reported as Open, a status that has no color, and the
    KeyError of [build_incident_attachment] reaches the caller; nothing is
    posted and nothing is logged. *)
Lemma open_incident_alert_raises :
  send_incident_alert_notification Messages.str_int (alert_env slack_workspace "Open" false)
    to_general an_incident None None empty_outbox
  = (RaiseBuiltin (KeyError "Open"), empty_outbox).
Proof. reflexivity. Qed.

(** The same with an integration whose metadata has no access token. *)
Example alert_without_access_token_raises :
  send_incident_alert_notification Messages.str_int (alert_env classic_workspace "Critical" false)
    to_general an_incident None None empty_outbox
  = (RaiseBuiltin (KeyError "access_token"), empty_outbox).
Proof. reflexivity. Qed.

(** A removed integration. *)
Example alert_of_removed_integration :
  send_incident_alert_notification Messages.str_int removed_env
    to_general an_incident None None empty_outbox
  = (ReturnNone, empty_outbox).
Proof. reflexivity. Qed.

(** A post that raises ApiError is logged, and the call returns. *)
Lemma alert_notification_outcomes_witness :
  send_incident_alert_notification Messages.str_int (alert_env slack_workspace "Critical" true)
    to_general an_incident None None empty_outbox
  = (ReturnNone,
     {| posts := [("/chat.postMessage",
                   {| token := "xoxb-1"; channel := "C1";
                      attachments := "Critical: CPU:#FA4747" |}, 5%Z)];
        post_log := [("rule.fail.slack_post", "channel_not_found")] |}).
Proof.
  pose proof (alert_notification_outcomes Z Messages.str_int
                (alert_env slack_workspace "Critical" true)
                to_general an_incident None None empty_outbox) as (_ & _ & H).
  destruct (H slack_workspace eq_refl) as (_ & H').
  destruct (H' (info_with_status "Critical") eq_refl) as (_ & _ & H'').
  exact (H'' _ "xoxb-1" eq_refl eq_refl).
Defined.

End AlertFacts.

(** * Properties of the notification settings *)

Import Notifications.

Section ManagerFacts.

Variable Provider SettingType OptionValue LegacyKey LegacyValue UserOptionValue : Type.
Variable Setting Store : Type.
Variable is_DEFAULT : OptionValue -> bool.
Variable is_ISSUE_ALERTS : SettingType -> bool.
Variable get_legacy_key : SettingType -> Res LegacyKey.
Variable get_legacy_value : SettingType -> OptionValue -> Res LegacyValue.
Variable is_None : LegacyValue -> bool.
Variable int : LegacyValue -> Res LegacyValue.
Variable str_key : string -> LegacyKey.
Variable invalid_value_message : OptionValue -> SettingType -> string.
Variable value_differs : Setting -> OptionValue -> bool.
Variable filter_first :
  Provider -> SettingType -> NotificationScopeType * Z * Z -> Store -> Res (option Setting).
Variable filter_delete :
  Provider -> SettingType -> NotificationScopeType * Z * Z -> M Store unit.
Variable get_or_create :
  Provider -> SettingType -> NotificationScopeType * Z * Z -> OptionValue
  -> M Store (Setting * bool).
Variable setting_update : Setting -> OptionValue -> M Store unit.
Variable get_value :
  option User -> LegacyKey -> option Project -> option Organization -> Store
  -> Res UserOptionValue.
Variable set_value :
  option User -> LegacyKey -> LegacyValue -> option Project -> option Organization
  -> M Store unit.
Variable unset_value : option User -> option Project -> LegacyKey -> M Store unit.

Local Abbreviation get_settings :=
  (Notifications.get_settings Provider SettingType LegacyKey UserOptionValue Setting Store
     get_legacy_key filter_first get_value).
Local Abbreviation remove_settings :=
  (Notifications.remove_settings Provider SettingType LegacyKey Store
     get_legacy_key filter_delete unset_value).
Local Abbreviation update_settings :=
  (Notifications.update_settings Provider SettingType OptionValue LegacyKey LegacyValue
     Setting Store is_DEFAULT is_ISSUE_ALERTS get_legacy_key get_legacy_value is_None int
     str_key invalid_value_message value_differs filter_delete get_or_create setting_update
     set_value unset_value).

(** The block of a transaction that raises leaves the database as it was. *)
Lemma transaction_atomic_rolls_back {A : Type} (block : M Store A) db :
  raises (fst (transaction_atomic Store block db)) = true ->
  snd (transaction_atomic Store block db) = db.
Proof.
  unfold transaction_atomic. destruct (block db) as [[a|e] db']; simpl; [discriminate|auto].
Qed.

Lemma lift_writes_nothing {A : Type} (r : Res A) : writes_nothing Store (lift Store r).
Proof. intros db. reflexivity. Qed.

Lemma ret_writes_nothing {A : Type} (a : A) : writes_nothing Store (ret Store a).
Proof. intros db. reflexivity. Qed.

Lemma raise_keeps {A : Type} (e : Exn) : keeps_on_error Store (@raise Store A e).
Proof. intros db _. reflexivity. Qed.

Lemma bindM_writes_nothing {A B : Type} (m : M Store A) (k : A -> M Store B) :
  writes_nothing Store m -> (forall a, writes_nothing Store (k a)) ->
  writes_nothing Store (bindM Store m k).
Proof.
  intros Hm Hk db. unfold bindM. specialize (Hm db).
  destruct (m db) as [[a|e] db']; simpl in *; subst; [apply Hk|reflexivity].
Qed.

Lemma bindM_keeps {A B : Type} (m : M Store A) (k : A -> M Store B) :
  writes_nothing Store m -> (forall a, keeps_on_error Store (k a)) ->
  keeps_on_error Store (bindM Store m k).
Proof.
  intros Hm Hk db. unfold bindM. specialize (Hm db).
  destruct (m db) as [[a|e] db']; simpl in *; subst; [apply Hk|reflexivity].
Qed.

Lemma transaction_atomic_keeps {A : Type} (block : M Store A) :
  keeps_on_error Store (transaction_atomic Store block).
Proof. intros db. apply transaction_atomic_rolls_back. Qed.

Lemma remove_settings_keeps provider type user team project organization :
  keeps_on_error Store (remove_settings provider type user team project organization).
Proof.
  apply bindM_keeps; [apply lift_writes_nothing|].
  intros at_. apply transaction_atomic_keeps.
Qed.

Lemma update_settings_keeps provider type value user team project organization :
  keeps_on_error Store (update_settings provider type value user team project organization).
Proof.
  unfold Notifications.update_settings.
  destruct (is_DEFAULT value); [apply remove_settings_keeps|].
  apply bindM_keeps; [apply lift_writes_nothing|]. intros valid.
  destruct (negb valid); [apply raise_keeps|].
  apply bindM_keeps; [apply lift_writes_nothing|]. intros at_.
  apply bindM_keeps; [apply lift_writes_nothing|]. intros key.
  apply bindM_keeps; [apply lift_writes_nothing|]. intros legacy_value.
  apply bindM_keeps.
  - destruct (is_ISSUE_ALERTS type); [|apply ret_writes_nothing].
    apply bindM_writes_nothing; [apply lift_writes_nothing|].
    intros legacy_value'. apply ret_writes_nothing.
  - intros translated. apply transaction_atomic_keeps.
Qed.


(** The failing call of C8 on the examples: a user, a project and an
    organization at once. *)
Example coordinates_of_three_entities :
  coordinates (Some alice) None (Some backend) (Some acme) = Return (PROJECT, 7%Z, 11%Z).
Proof. reflexivity. Qed.

(** ** Which calls are accepted *)

(** The scope and the target are found exactly when a user or a team is
    passed and, besides, a project, an organization or a user whose id is
    not 0: a team alone is refused, and so are a project or an organization
    without a user or a team. *)
Theorem coordinates_raise_exactly user team project organization :
  raises (coordinates user team project organization) = true
  <-> (user = None /\ team = None)
      \/ (project = None /\ organization = None
          /\ (user = None \/ exists u, user = Some u /\ user_id u = 0%Z)).
Proof.
  assert (Hscope :
    raises (_get_scope (option_map user_id user) project organization) = true
    <-> project = None /\ organization = None
        /\ (user = None \/ exists u, user = Some u /\ user_id u = 0%Z)).
  { unfold _get_scope.
    destruct project as [p|]; [split; [discriminate|intros [[=] _]]|].
    destruct organization as [o|]; [split; [discriminate|intros (_ & [=] & _)]|].
    destruct user as [u|]; simpl.
    - destruct (Z.eqb_spec (user_id u) 0) as [E|E]; simpl.
      + split; [|reflexivity]. intros _. repeat split. right. eauto.
      + split; [discriminate|].
        intros (_ & _ & [[=]|(u' & [= <-] & Hu)]). contradiction.
    - split; [|reflexivity]. intros _. auto. }
  assert (Htarget : raises (_get_target user team) = true <-> user = None /\ team = None).
  { unfold _get_target.
    destruct user as [u|]; [split; [discriminate|intros [[=] _]]|].
    destruct team as [t|]; [split; [discriminate|intros [_ [=]]]|].
    split; auto. }
  unfold coordinates, bind.
  destruct (_get_scope (option_map user_id user) project organization) as [scope|e].
  - destruct (_get_target user team) as [target|e]; simpl in *.
    + split; [discriminate|].
      intros [H|H]; [apply Htarget in H|apply Hscope in H]; discriminate.
    + split; [|reflexivity]. intros _. left. now apply Htarget.
  - simpl in *. split; [|reflexivity]. intros _. right. now apply Hscope.
Qed.

(** A call of [update_settings] or [remove_settings] that raises has
    written nothing: the checks and the lookups of the legacy mapping that
    come before the transaction do not write, and every write is in the
    block of the transaction. *)
Theorem settings_errors_write_nothing provider type value user team project organization db :
  (raises (fst (update_settings provider type value user team project organization db))
   = true ->
   snd (update_settings provider type value user team project organization db) = db)
  /\ (raises (fst (remove_settings provider type user team project organization db))
      = true ->
      snd (remove_settings provider type user team project organization db) = db).
Proof.
  split.
  - apply update_settings_keeps.
  - apply remove_settings_keeps.
Qed.

End ManagerFacts.

(** * Instances *)

(** The name is found among the channels on the first page: one request. *)
Example general_is_found :
  get_channel_id ascii_lower env_jane 1 "#general" false fresh
  = Some (Return ("#", Some "C123", false),
          {| clock_reads := 1; requests := [list_request "conversations" ""];
             logged := [] |}).
Proof. reflexivity. Qed.

(** Upper case in the query and leading prefix characters do not matter. *)
Example general_is_found_any_case :
  get_channel_id ascii_lower env_jane 1 "@#General" false fresh
  = get_channel_id ascii_lower env_jane 1 "general" false fresh.
Proof. reflexivity. Qed.

(** A single user displayed as Bob is returned once the users are
    exhausted. *)
Example bob_is_found_by_display_name :
  get_channel_id ascii_lower env_jane 2 "Bob" false fresh
  = Some (Return ("@", Some "U3", false),
          {| clock_reads := 4;
             requests := [list_request "conversations" ""; list_request "users" "";
                          list_request "users" "dXNlcjpVMg=="];
             logged := [] |}).
Proof. reflexivity. Qed.

(** With one unit of fuel the second page of users is not reached. *)
Example bob_needs_two_pages :
  get_channel_id ascii_lower env_jane 1 "Bob" false fresh = None.
Proof. reflexivity. Qed.

(** Eleven seconds are past the synchronous deadline but not past the
    asynchronous one: there the second page is asked for, and fails. *)
Example slow_first_page :
  get_channel_id ascii_lower env_slow 1 "general" false fresh
  = Some (Return ("#", None, true),
          {| clock_reads := 2; requests := [list_request "conversations" ""];
             logged := [] |})
  /\ get_channel_id ascii_lower env_slow 2 "general" true fresh
     = Some (Return ("#", None, false),
             {| clock_reads := 2;
                requests := [list_request "conversations" "";
                             list_request "conversations" "bmV4dDoy"];
                logged := [("rule.slack.conversations_list_failed", "script exhausted")] |}).
Proof. split; reflexivity. Qed.

Example strip_channel_name_examples :
  strip_channel_name "#@#general" = "general"
  /\ strip_channel_name "gen#eral" = "gen#eral"
  /\ strip_channel_name "@@" = "".
Proof. repeat split. Qed.


Lemma scans_at_users_general :
  Scans ascii_lower env_general "General" 10%Q fresh at_users_general.
Proof.
  apply (visits_next_type ascii_lower env_general "General"
           (deadline env_general 10%Q fresh) (first_config env_general fresh)
           (first_config env_general fresh) init_locals
           (at_world at_users_general) users_type []);
    [apply visits_start | reflexivity ..].
Qed.

Lemma exact_name_match_returns_found_witness :
  resolves ascii_lower env_general "General" 10%Q fresh
    (Return ("@", Some "U3", false),
     {| clock_reads := 2;
        requests := [list_request "conversations" ""; list_request "users" ""];
        logged := [] |}).
Proof.
  apply (exact_name_match_returns_found ascii_lower env_general "General" 10%Q fresh
           at_users_general
           {| results := [a_member "jdoe" "U1" "General"; a_member "jd2" "U2" "General";
                          a_member "general" "U3" "Someone"; a_member "gen" "U4" "General"];
              next_cursor := Some "dXNlcjpVMDYx" |}
           [a_member "jdoe" "U1" "General"; a_member "jd2" "U2" "General"]
           (a_member "general" "U3" "Someone")
           [a_member "gen" "U4" "General"]);
    [apply scans_at_users_general | reflexivity ..].
Defined.

Lemma scans_at_second_page :
  Scans ascii_lower env_rate_limited "general" 10%Q fresh at_second_page.
Proof.
  apply (visits_next_page ascii_lower env_rate_limited "general"
           (deadline env_rate_limited 10%Q fresh) (first_config env_rate_limited fresh)
           (first_config env_rate_limited fresh) "bmV4dDoy" init_locals
           (at_world at_second_page));
    [apply visits_start | reflexivity].
Qed.

Lemma transport_error_returns_not_found_witness :
  resolves ascii_lower env_rate_limited "general" 10%Q fresh
    (Return ("#", None, false),
     {| clock_reads := 2;
        requests := [list_request "conversations" "";
                     list_request "conversations" "bmV4dDoy"];
        logged := [("rule.slack.conversations_list_failed", "rate_limited")] |}).
Proof.
  apply (transport_error_returns_not_found ascii_lower env_rate_limited "general" 10%Q
           fresh at_second_page "rate_limited");
    [apply scans_at_second_page | reflexivity].
Defined.

Lemma serves_channel_pages :
  serves env_jane (deadline env_jane 10%Q fresh) conversations_type ""
    (snd (read_clock env_jane fresh)) channel_pages.
Proof. repeat split. Qed.

Lemma serves_jane_pages :
  serves env_jane (deadline env_jane 10%Q fresh) users_type ""
    (paged env_jane conversations_type "" (snd (read_clock env_jane fresh)) channel_pages)
    jane_pages.
Proof. repeat split. Qed.

Lemma duplicate_display_names_raise_witness :
  resolves ascii_lower env_jane "Jane Doe" 10%Q fresh
    (Raise (DuplicateDisplayNameError "Jane Doe"),
     {| clock_reads := 4;
        requests := [list_request "conversations" ""; list_request "users" "";
                     list_request "users" "dXNlcjpVMg=="];
        logged := [] |}).
Proof.
  apply (duplicate_display_names_raise ascii_lower env_jane "Jane Doe" 10%Q fresh
           channel_pages jane_pages);
    [apply serves_channel_pages | apply serves_jane_pages | reflexivity | simpl; lia].
Defined.

Lemma scans_at_users_jane :
  Scans ascii_lower env_jane_slow "Jane Doe" 10%Q fresh at_users_jane.
Proof.
  apply (visits_next_type ascii_lower env_jane_slow "Jane Doe"
           (deadline env_jane_slow 10%Q fresh) (first_config env_jane_slow fresh)
           (first_config env_jane_slow fresh) init_locals
           (at_world at_users_jane) users_type []);
    [apply visits_start | reflexivity ..].
Qed.

(** C4 fails as stated: two users displayed as Jane Doe are on record, the
    page names a next cursor, the clock is past the deadline, and the call
    returns ("@", None, True); it does not raise. *)
Lemma duplicate_then_timeout_does_not_raise :
  scan_items ascii_lower "users" "@" "Jane Doe"
    [a_member "jane" "U1" "Jane Doe"; a_member "jdoe" "U2" "Jane Doe"] init_locals
  = inr {| id_data := Some ("@", Some "U1", false); found_duplicate := true |}
  /\ fetched env_jane_slow at_users_jane
     = inr {| results := [a_member "jane" "U1" "Jane Doe"; a_member "jdoe" "U2" "Jane Doe"];
              next_cursor := Some "dXNlcjpVMg==" |}
  /\ (deadline env_jane_slow 10%Q fresh < check_time env_jane_slow at_users_jane)%Q
  /\ get_channel_id_with_timeout ascii_lower env_jane_slow 2 "Jane Doe" 10%Q fresh
     = Some (Return ("@", None, true),
             {| clock_reads := 3;
                requests := [list_request "conversations" ""; list_request "users" ""];
                logged := [] |})
  /\ ~ (exists w', resolves ascii_lower env_jane_slow "Jane Doe" 10%Q fresh
                     (Raise (DuplicateDisplayNameError "Jane Doe"), w')).
Proof.
  repeat split.
  intros [w' H].
  assert (H' : resolves ascii_lower env_jane_slow "Jane Doe" 10%Q fresh
                 (Return ("@", None, true),
                  {| clock_reads := 3;
                     requests := [list_request "conversations" ""; list_request "users" ""];
                     logged := [] |}))
    by (apply resolves_at with (fuel := 2); reflexivity).
  pose proof (resolves_functional _ _ _ _ _ _ _ H H') as E.
  discriminate E.
Qed.

Lemma recorded_duplicate_then_clock_witness :
  resolves ascii_lower env_jane_slow "Jane Doe" 10%Q fresh
    (Return ("@", None, true),
     {| clock_reads := 3;
        requests := [list_request "conversations" ""; list_request "users" ""];
        logged := [] |}).
Proof.
  apply (proj1 (proj2
           (recorded_duplicate_then_clock ascii_lower env_jane_slow "Jane Doe" 10%Q fresh
              at_users_jane
              {| results := [a_member "jane" "U1" "Jane Doe"; a_member "jdoe" "U2" "Jane Doe"];
                 next_cursor := Some "dXNlcjpVMg==" |}
              {| id_data := Some ("@", Some "U1", false); found_duplicate := true |}
              scans_at_users_jane eq_refl eq_refl eq_refl))).
  reflexivity.
Defined.

Lemma expired_deadline_times_out_after_first_page_witness :
  resolves ascii_lower env_slow "general" 10%Q fresh
    (Return ("#", None, true),
     {| clock_reads := 2;
        requests := [list_request "conversations" ""];
        logged := [] |}).
Proof.
  apply (expired_deadline_times_out_after_first_page ascii_lower env_slow "general" 10%Q
           fresh {| results := [a_channel "random" "C1"]; next_cursor := Some "bmV4dDoy" |});
    reflexivity.
Defined.

Lemma no_match_returns_not_found_witness :
  resolves ascii_lower env_jane "robert" 10%Q fresh
    (Return ("@", None, false),
     {| clock_reads := 4;
        requests := [list_request "conversations" ""; list_request "users" "";
                     list_request "users" "dXNlcjpVMg=="];
        logged := [] |}).
Proof.
  apply (no_match_returns_not_found ascii_lower env_jane "robert" 10%Q fresh
           channel_pages jane_pages);
    [apply serves_channel_pages | apply serves_jane_pages | reflexivity ..].
Defined.

Lemma result_id_excludes_timeout_witness :
  (true = true -> @None string = None) /\ (@None string <> None -> true = false).
Proof.
  apply (result_id_excludes_timeout ascii_lower env_slow 1 "general" 10%Q fresh
           "#" None true
           {| clock_reads := 2; requests := [list_request "conversations" ""];
              logged := [] |}).
  reflexivity.
Defined.

(** * Properties of [parse_link] *)

Section LinkFacts.

Import Links.

Lemma lookup_placeholder v : lookup scrubbed_items (placeholder v) = None.
Proof. reflexivity. Qed.

(** The loop of [parse_link] computes this: after one of the three
    keywords the next segment is replaced by the keyword's placeholder,
    whatever it was, and the scrubbing goes on after it; any other segment
    is kept. *)
Theorem scrub_path_equations :
  scrub_path [] = []
  /\ (forall keyword v,
        lookup scrubbed_items keyword = Some v ->
        scrub_path [keyword] = [keyword]
        /\ forall next rest,
             scrub_path (keyword :: next :: rest)
             = keyword :: placeholder v :: scrub_path rest)
  /\ (forall segment rest,
        lookup scrubbed_items segment = None ->
        scrub_path (segment :: rest) = segment :: scrub_path rest).
Proof.
  split; [reflexivity|split].
  - intros keyword v Hk. unfold scrub_path. cbn [scrub_from]. rewrite Hk.
    split; [reflexivity|].
    intros next rest. cbn [scrub_from option_map]. now rewrite lookup_placeholder.
  - intros segment rest Hs. unfold scrub_path. cbn [scrub_from]. now rewrite Hs.
Qed.

Lemma scrub_from_length pending path :
  length (scrub_from pending path) = length path.
Proof.
  revert pending. induction path as [|x rest IH]; intros pending; simpl; auto.
Qed.

(** In the scrubbed path every segment that follows a keyword is that
    keyword's placeholder. *)
Lemma scrub_from_after_keyword path :
  forall pending i keyword v next,
    nth_error (scrub_from pending path) i = Some keyword ->
    lookup scrubbed_items keyword = Some v ->
    nth_error (scrub_from pending path) (S i) = Some next ->
    next = placeholder v.
Proof.
  induction path as [|x rest IH]; intros pending i keyword v next; simpl.
  - destruct i; discriminate.
  - destruct i as [|i]; cbn [scrub_from nth_error].
    + intros [= ->] Hk. rewrite Hk. cbn [option_map].
      destruct rest; cbn [scrub_from nth_error]; [discriminate|]. now intros [= <-].
    + apply IH.
Qed.

Theorem scrub_path_after_keyword path i keyword v next :
  nth_error (scrub_path path) i = Some keyword ->
  lookup scrubbed_items keyword = Some v ->
  nth_error (scrub_path path) (S i) = Some next ->
  next = placeholder v.
Proof. apply scrub_from_after_keyword. Qed.

Lemma scrub_from_fixed path :
  forall pending q,
    q = None \/ q = pending ->
    scrub_from q (scrub_from pending path) = scrub_from pending path.
Proof.
  induction path as [|x rest IH]; intros pending q Hq; [reflexivity|].
  cbn [scrub_from].
  assert (Hitem : match q with
                  | Some written => written
                  | None => match pending with Some written => written | None => x end
                  end
                  = match pending with Some written => written | None => x end).
  { destruct Hq as [->| ->]; [reflexivity|]. now destruct pending. }
  rewrite Hitem. f_equal. apply IH. now right.
Qed.

(** Scrubbing a scrubbed path changes nothing. *)
Theorem scrub_path_idempotent path :
  scrub_path (scrub_path path) = scrub_path path.
Proof. apply scrub_from_fixed. now left. Qed.

(** ** Splitting and joining *)

Lemma split_nonempty sep s : split sep s <> [].
Proof.
  destruct s as [|a rest]; simpl; [discriminate|].
  destruct (Ascii.eqb a sep); [discriminate|].
  destruct (split sep rest); discriminate.
Qed.

Lemma concat_cons sep x pieces :
  pieces <> [] ->
  String.concat sep (x :: pieces) = (x ++ sep ++ String.concat sep pieces)%string.
Proof. destruct pieces; [congruence|reflexivity]. Qed.

Lemma concat_head (a : ascii) sep piece pieces :
  String.concat sep (String a piece :: pieces)
  = String a (String.concat sep (piece :: pieces)).
Proof. destruct pieces; reflexivity. Qed.

(** Joining the pieces of a split gives the string back. *)
Lemma join_split (sep : ascii) s :
  String.concat (String sep EmptyString) (split sep s) = s.
Proof.
  induction s as [|a rest IH]; [reflexivity|].
  simpl split. destruct (Ascii.eqb a sep) eqn:E.
  - apply Ascii.eqb_eq in E. subst a.
    rewrite concat_cons by apply split_nonempty.
    simpl. now rewrite IH.
  - destruct (split sep rest) as [|piece pieces] eqn:Es.
    + now apply split_nonempty in Es.
    + rewrite concat_head. now rewrite IH.
Qed.

Lemma scrub_from_no_keyword path :
  Forall (fun segment => lookup scrubbed_items segment = None) path ->
  scrub_from None path = path.
Proof.
  induction 1 as [|x rest Hx _ IH]; [reflexivity|].
  cbn [scrub_from]. rewrite Hx. cbn [option_map]. now rewrite IH.
Qed.

Section ParseLinkFacts.

Variable urlparse_path urlparse_query : string -> string.
Variable parse_qs : string -> list (string * list string).
Variable urlencode : list (string * QueryValue) -> string.

Local Abbreviation parse_link :=
  (Links.parse_link urlparse_path urlparse_query parse_qs urlencode).

(** A link whose path has none of the three keywords among its segments
    keeps its path, less the slashes at both ends; the encoded query
    follows after one slash. *)
Theorem parse_link_keeps_plain_paths url :
  Forall (fun segment => lookup scrubbed_items segment = None)
    (split "/" (strip "/" (urlparse_path url))) ->
  parse_link url
  = (strip "/" (urlparse_path url) ++ "/"
     ++ urlencode (scrub_query (parse_qs (urlparse_query url))))%string.
Proof.
  intros H. unfold Links.parse_link, scrub_path.
  rewrite (scrub_from_no_keyword _ H).
  now rewrite (join_split "/").
Qed.

End ParseLinkFacts.

(** The query keeps its keys in order; only the value of "project" is
    replaced, by the text "{project}". *)
Theorem scrub_query_only_project query :
  map fst (scrub_query query) = map fst query
  /\ (forall key values,
        In (key, values) query -> key <> "project" ->
        In (key, Values values) (scrub_query query))
  /\ (forall key value,
        In (key, value) (scrub_query query) ->
        (key = "project" /\ value = Text "{project}")
        \/ (key <> "project" /\ exists values, value = Values values /\ In (key, values) query)).
Proof.
  unfold scrub_query. split; [|split].
  - rewrite map_map. apply map_ext. intros [k v]. simpl.
    now destruct (String.eqb k "project").
  - intros key values Hin Hkey. apply in_map_iff.
    exists (key, values). split; [|assumption]. simpl.
    apply String.eqb_neq in Hkey. now rewrite Hkey.
  - intros key value Hin. apply in_map_iff in Hin as ([k v] & Heq & Hin).
    simpl in Heq. destruct (String.eqb k "project") eqn:E; injection Heq as <- <-.
    + left. apply String.eqb_eq in E. auto.
    + right. apply String.eqb_neq in E. eauto.
Qed.

End LinkFacts.

(** * Properties of the message builders *)

Section MessageFacts.

Import Messages.
Local Open Scope string_scope.

(** ** Options of actors *)

Lemma to_int_proper n : Z.to_int n <> Decimal.Pos Decimal.Nil /\ Z.to_int n <> Decimal.Neg Decimal.Nil.
Proof.
  destruct n as [|p|p]; simpl; split; try discriminate;
    intros [= H]; now apply DecimalPos.Unsigned.to_uint_nonnil in H.
Qed.

(** Reading [str(n)] as a decimal number gives [n] back. *)
Lemma int_of_str_int n :
  option_map Z.of_int (NilZero.int_of_string (str_int n)) = Some n.
Proof.
  unfold str_int. destruct (to_int_proper n) as [Hp Hn].
  rewrite NilZero.isi by assumption. simpl. now rewrite DecimalZ.of_to.
Qed.

Lemma str_int_inj n m : str_int n = str_int m -> n = m.
Proof.
  intros H. pose proof (int_of_str_int n) as Hn.
  rewrite H, int_of_str_int in Hn. congruence.
Qed.

(** The value of an option tells the actor: two actors with the same value
    are both users or both teams, and have the same id; every user and
    every team has an option. *)
Theorem format_actor_option_value_identifies a b oa ob :
  format_actor_option a = Ok oa ->
  format_actor_option b = Ok ob ->
  value oa = value ob ->
  (exists u u', a = UserActor u /\ b = UserActor u' /\ user_id u = user_id u')
  \/ (exists t t', a = TeamActor t /\ b = TeamActor t' /\ team_id t = team_id t').
Proof.
  destruct a as [u|t|], b as [u'|t'|]; simpl; try discriminate;
    intros [= <-] [= <-]; simpl; intros [= H].
  - left. exists u, u'. repeat split. now apply str_int_inj.
  - right. exists t, t'. repeat split. now apply str_int_inj.
Qed.

(** ** Member options are sorted *)

Lemma insert_by_perm {A} (key : A -> string) x l :
  Permutation (insert_by key x l) (x :: l).
Proof.
  induction l as [|y l IH]; simpl; [reflexivity|].
  destruct (String.leb (key x) (key y)); [reflexivity|].
  rewrite IH. apply perm_swap.
Qed.

Lemma sorted_perm {A} (key : A -> string) l :
  Permutation (sorted key l) l.
Proof.
  induction l as [|x l IH]; simpl; [reflexivity|].
  rewrite insert_by_perm. now constructor.
Qed.

Lemma insert_by_sorted {A} (key : A -> string) x l :
  Sorted (fun a b => String.leb (key a) (key b) = true) l ->
  Sorted (fun a b => String.leb (key a) (key b) = true) (insert_by key x l).
Proof.
  induction 1 as [|y l Hl IH Hy]; simpl.
  - repeat constructor.
  - destruct (String.leb (key x) (key y)) eqn:E.
    + constructor; [now constructor|]. now constructor.
    + constructor; [assumption|].
      destruct l as [|z l]; simpl.
      * constructor. destruct (String.leb_total (key x) (key y)); congruence.
      * destruct (String.leb (key x) (key z)).
        -- constructor. destruct (String.leb_total (key x) (key y)); congruence.
        -- inversion Hy. now constructor.
Qed.

Lemma sorted_sorted {A} (key : A -> string) l :
  Sorted (fun a b => String.leb (key a) (key b) = true) (sorted key l).
Proof.
  induction l as [|x l IH]; simpl; [constructor|].
  now apply insert_by_sorted.
Qed.

Lemma for_each_users users :
  for_each (fun u => format_actor_option (UserActor u)) users = Ok (map user_option users).
Proof.
  induction users as [|u users IH]; [reflexivity|].
  cbn [for_each map]. rewrite IH. reflexivity.
Qed.

(** [get_member_assignees] never raises; it gives one option per selected
    member, each with the member's display name as text, in ascending order
    of the texts. *)
Theorem member_assignees_are_sorted queryset :
  exists options,
    get_member_assignees queryset = Ok options
    /\ Permutation options (map user_option queryset)
    /\ Sorted (fun a b => String.leb (text a) (text b) = true) options.
Proof.
  exists (map user_option (sorted display_name queryset)).
  split; [apply for_each_users|split].
  - apply Permutation_map, sorted_perm.
  - pose proof (sorted_sorted display_name queryset) as H.
    induction H as [|u l Hl IH Hu]; simpl; constructor; auto.
    destruct Hu; simpl; constructor. assumption.
Qed.

(** ** Action texts *)

Lemma before_colon_app status params :
  before_colon status = status ->
  before_colon (status ++ ":" ++ params) = status.
Proof.
  induction status as [|a status IH]; simpl; [reflexivity|].
  destruct (Ascii.eqb a ":"); [discriminate|].
  intros [= H]. f_equal. now apply IH.
Qed.

Section ActionTextFacts.

Variable from_actor_identifier : string -> ActorTuple.
Variable slack_identity : User -> string -> option string.

Local Abbreviation build_action_text :=
  (Messages.build_action_text from_actor_identifier slack_identity).

(** What follows the first ':' of the value of a status action does not
    matter: "resolved:inNextRelease" reads as "resolved". *)
Theorem build_action_text_ignores_parameters identity action status params :
  name action <> "assign" ->
  before_colon status = status ->
  action_value action = Some (status ++ ":" ++ params) ->
  build_action_text identity action
  = build_action_text identity
      {| name := name action; action_value := Some status;
         selected_options := selected_options action |}.
Proof.
  intros Hname Hstatus Hvalue.
  unfold Messages.build_action_text. simpl.
  apply String.eqb_neq in Hname. rewrite Hname, Hvalue.
  now rewrite (before_colon_app status params Hstatus), Hstatus.
Qed.

(** A status action that has a value.  With an identity, the status
    resolved gives the text Issue resolved, ignored gives Issue ignored and
    unresolved gives Issue re-opened, each by the acting identity; without
    an identity these three statuses raise AttributeError.  Any other
    status gives None, with or without an identity. *)
Theorem build_action_text_statuses identity action v :
  name action <> "assign" ->
  action_value action = Some v ->
  let said verb :=
    match identity with
    | Some i => Ok (Some ("*Issue " ++ verb ++ " by <@" ++ external_id i ++ ">*"))
    | None => Err AttributeError
    end in
  (before_colon v = "resolved" -> build_action_text identity action = said "resolved")
  /\ (before_colon v = "ignored" -> build_action_text identity action = said "ignored")
  /\ (before_colon v = "unresolved" -> build_action_text identity action = said "re-opened")
  /\ (~ In (before_colon v) ["resolved"; "ignored"; "unresolved"] ->
      build_action_text identity action = Ok None).
Proof.
  intros Hname Hvalue said.
  unfold Messages.build_action_text.
  apply String.eqb_neq in Hname. rewrite Hname, Hvalue.
  unfold get, statuses. simpl. repeat split.
  - intros ->. reflexivity.
  - intros ->. reflexivity.
  - intros ->. reflexivity.
  - intros Hnot.
    destruct (String.eqb_spec (before_colon v) "resolved") as [E|_]; [elim Hnot; rewrite E; simpl; auto|].
    destruct (String.eqb_spec (before_colon v) "ignored") as [E|_]; [elim Hnot; rewrite E; simpl; auto|].
    destruct (String.eqb_spec (before_colon v) "unresolved") as [E|_]; [elim Hnot; rewrite E; simpl; auto|].
    reflexivity.
Qed.

End ActionTextFacts.

(** ** Titles *)

(** [build_attachment_title] raises exactly for a csp event whose metadata
    lack the directive or the uri. *)
Theorem build_attachment_title_raises obj :
  (exists e, build_attachment_title obj = Err e)
  <-> get_event_type obj = "csp"
      /\ (get (get_event_metadata obj) "directive" = None
          \/ get (get_event_metadata obj) "uri" = None).
Proof.
  unfold build_attachment_title.
  destruct (String.eqb_spec (get_event_type obj) "csp") as [Hcsp|Hcsp].
  - rewrite Hcsp. simpl.
    destruct (get (get_event_metadata obj) "directive") as [d|];
      destruct (get (get_event_metadata obj) "uri") as [u|];
      destruct (get (get_event_metadata obj) "type");
      split; try (intros [e [=]]); try (intros [_ [[=]|[=]]]); eauto.
  - destruct (String.eqb (get_event_type obj) "error");
      destruct (get (get_event_metadata obj) "type");
      split; try (intros [e [=]]); intros [H _]; contradiction.
Qed.

(** ** Incident attachments *)

Section IncidentFacts.

Variable Timestamp : Type.
Variable format_timestamp : Timestamp -> string.

Local Abbreviation build_incident_attachment :=
  (Messages.build_incident_attachment Timestamp format_timestamp).

(** [build_incident_attachment] gives an attachment exactly for the
    statuses Resolved, Warning and Critical, and raises KeyError with the
    status otherwise; the attachment has the color of its status, the title
    as fallback, no fields and no actions. *)
Theorem build_incident_attachment_statuses (data : IncidentInfo Timestamp) :
  (In (info_status data) ["Resolved"; "Warning"; "Critical"] ->
   exists a,
     build_incident_attachment data = Ok a
     /\ In (info_status data, color a)
          [("Resolved", "#4dc771"); ("Warning", "#FFC227"); ("Critical", "#FA4747")]
     /\ fallback a = info_title data /\ attachment_title a = info_title data
     /\ fields a = [] /\ actions a = [])
  /\ (~ In (info_status data) ["Resolved"; "Warning"; "Critical"] ->
      build_incident_attachment data = Err (KeyError (info_status data))).
Proof.
  unfold Messages.build_incident_attachment, get, incident_colors. simpl. split.
  - intros [E|[E|[E|[]]]]; rewrite <- E; simpl; eexists; repeat split; simpl; auto.
  - intros Hnot.
    destruct (String.eqb_spec (info_status data) "Resolved") as [E|_]; [elim Hnot; rewrite E; simpl; auto|].
    destruct (String.eqb_spec (info_status data) "Warning") as [E|_]; [elim Hnot; rewrite E; simpl; auto|].
    destruct (String.eqb_spec (info_status data) "Critical") as [E|_]; [elim Hnot; rewrite E; simpl; auto|].
    reflexivity.
Qed.

End IncidentFacts.

End MessageFacts.

(** * Further instances *)

Lemma unique_display_name_is_returned_witness :
  resolves ascii_lower env_jane "Bob" 10%Q fresh
    (Return ("@", Some "U3", false),
     {| clock_reads := 4;
        requests := [list_request "conversations" ""; list_request "users" "";
                     list_request "users" "dXNlcjpVMg=="];
        logged := [] |}).
Proof.
  apply (unique_display_name_is_returned ascii_lower env_jane "Bob" 10%Q fresh
           channel_pages jane_pages (a_member "rsmith" "U3" "Bob"));
    [apply serves_channel_pages | apply serves_jane_pages | reflexivity ..].
Defined.

Lemma get_channel_id_ignores_leading_prefixes_witness :
  get_channel_id ascii_lower env_jane 1 "#@general" false fresh
  = get_channel_id ascii_lower env_jane 1 "general" false fresh.
Proof.
  apply (get_channel_id_ignores_leading_prefixes ascii_lower env_jane 1 "#@" "general"
           false fresh).
  reflexivity.
Defined.

Lemma requests_conversations_then_users_witness :
  exists channels users,
    [list_request "conversations" ""; list_request "users" "";
     list_request "users" "dXNlcjpVMg=="]
    = [] ++ map (list_request "conversations") ("" :: channels)
         ++ map (list_request "users") users
    /\ (users = [] \/ exists more, users = "" :: more)
    /\ Forall (fun c => c <> "") channels
    /\ Forall (fun c => c <> "") (tl users)
    /\ Forall (fun q => limit q = 1000%Z)
         (skipn 0 [list_request "conversations" ""; list_request "users" "";
                   list_request "users" "dXNlcjpVMg=="]).
Proof.
  apply (requests_conversations_then_users ascii_lower env_jane 2 "Bob" 10%Q fresh
           (Return ("@", Some "U3", false))
           {| clock_reads := 4;
              requests := [list_request "conversations" ""; list_request "users" "";
                           list_request "users" "dXNlcjpVMg=="];
              logged := [] |}).
  reflexivity.
Defined.

Lemma clock_is_read_at_page_boundaries_witness :
  1 <= 3 /\ (4 = 0 + 3 \/ 4 = S (0 + 3)).
Proof.
  apply (clock_is_read_at_page_boundaries ascii_lower env_jane 2 "Bob" 10%Q fresh
           (Return ("@", Some "U3", false))
           {| clock_reads := 4;
              requests := [list_request "conversations" ""; list_request "users" "";
                           list_request "users" "dXNlcjpVMg=="];
              logged := [] |}).
  reflexivity.
Defined.

Lemma timed_out_means_deadline_passed_witness :
  (0 + 10 < 11)%Q.
Proof.
  apply (timed_out_means_deadline_passed ascii_lower env_slow 1 "general" 10%Q fresh
           "#" None
           {| clock_reads := 2; requests := [list_request "conversations" ""];
              logged := [] |}).
  reflexivity.
Defined.

Lemma deadline_bounds_the_run_witness :
  exists r w',
    (forall fuel, 11 <= fuel ->
       get_channel_id_with_timeout ascii_lower env_endless fuel "general" 10%Q fresh
       = Some (r, w'))
    /\ length (requests w') <= length (requests fresh) + 11.
Proof.
  apply (deadline_bounds_the_run ascii_lower env_endless "general" 10%Q fresh 11).
  - lia.
  - intros m Hm. unfold deadline, Qlt. simpl in *. lia.
Defined.

Lemma returned_id_was_served_witness :
  exists list_name c,
    served_in env_general fresh
      {| clock_reads := 2;
         requests := [list_request "conversations" ""; list_request "users" ""];
         logged := [] |} list_name c
    /\ item_id c = "U3"
    /\ ((list_name = "conversations" /\ "@" = "#"
         /\ exact_match ascii_lower "General" c = true)
        \/ (list_name = "users" /\ "@" = "@"
            /\ (exact_match ascii_lower "General" c = true
                \/ display_match "General" c = true))).
Proof.
  apply (returned_id_was_served ascii_lower env_general 1 "General" 10%Q fresh
           "@" "U3" false).
  reflexivity.
Defined.

Lemma scrub_path_after_keyword_witness :
  "{issue_id}" = Links.placeholder "issue_id".
Proof.
  apply (scrub_path_after_keyword ["organizations"; "acme"; "issues"; "42"; "events"]
           2 "issues" "issue_id" "{issue_id}");
    reflexivity.
Defined.

Lemma parse_link_keeps_plain_paths_witness :
  Links.parse_link (fun url => url) (fun _ => "") (fun _ => []) (fun _ => "")
    "/settings/account/"
  = ("settings/account" ++ "/" ++ "")%string.
Proof.
  apply (parse_link_keeps_plain_paths (fun url => url) (fun _ => "") (fun _ => [])
           (fun _ => "") "/settings/account/").
  repeat constructor.
Defined.

Lemma format_actor_option_value_identifies_witness :
  (exists u u',
     Messages.UserActor {| Messages.user_id := 7; Messages.display_name := "Jane" |}
     = Messages.UserActor u
     /\ Messages.UserActor {| Messages.user_id := 7; Messages.display_name := "J. Doe" |}
        = Messages.UserActor u'
     /\ Messages.user_id u = Messages.user_id u')
  \/ (exists t t',
        Messages.UserActor {| Messages.user_id := 7; Messages.display_name := "Jane" |}
        = Messages.TeamActor t
        /\ Messages.UserActor {| Messages.user_id := 7; Messages.display_name := "J. Doe" |}
           = Messages.TeamActor t'
        /\ Messages.team_id t = Messages.team_id t').
Proof.
  apply (format_actor_option_value_identifies
           (Messages.UserActor {| Messages.user_id := 7; Messages.display_name := "Jane" |})
           (Messages.UserActor {| Messages.user_id := 7; Messages.display_name := "J. Doe" |})
           {| Messages.text := "Jane"; Messages.value := "user:7" |}
           {| Messages.text := "J. Doe"; Messages.value := "user:7" |});
    reflexivity.
Defined.

Lemma build_action_text_ignores_parameters_witness :
  Messages.build_action_text (fun _ => Messages.OtherTuple false) (fun _ _ => None)
    (Some {| Messages.external_id := "U2147483697"; Messages.idp_external_id := "T1" |})
    {| Messages.name := "status";
       Messages.action_value := Some "resolved:inNextRelease";
       Messages.selected_options := None |}
  = Messages.build_action_text (fun _ => Messages.OtherTuple false) (fun _ _ => None)
      (Some {| Messages.external_id := "U2147483697"; Messages.idp_external_id := "T1" |})
      {| Messages.name := "status";
         Messages.action_value := Some "resolved";
         Messages.selected_options := None |}.
Proof.
  apply (build_action_text_ignores_parameters
           (fun _ => Messages.OtherTuple false) (fun _ _ => None)
           (Some {| Messages.external_id := "U2147483697"; Messages.idp_external_id := "T1" |})
           {| Messages.name := "status";
              Messages.action_value := Some "resolved:inNextRelease";
              Messages.selected_options := None |}
           "resolved" "inNextRelease");
    [discriminate | reflexivity | reflexivity].
Defined.

Lemma build_action_text_statuses_witness :
  Messages.build_action_text (fun _ => Messages.OtherTuple false) (fun _ _ => None)
    (Some {| Messages.external_id := "U2147483697"; Messages.idp_external_id := "T1" |})
    {| Messages.name := "status";
       Messages.action_value := Some "unresolved:";
       Messages.selected_options := None |}
  = Messages.Ok (Some "*Issue re-opened by <@U2147483697>*").
Proof.
  apply (proj1 (proj2 (proj2
           (build_action_text_statuses
              (fun _ => Messages.OtherTuple false) (fun _ _ => None)
              (Some {| Messages.external_id := "U2147483697";
                       Messages.idp_external_id := "T1" |})
              {| Messages.name := "status";
                 Messages.action_value := Some "unresolved:";
                 Messages.selected_options := None |}
              "unresolved:" ltac:(discriminate) eq_refl)))).
  reflexivity.
Defined.

(** * Properties of [build_group_attachment] *)

Section IssueFacts.

Import Messages Issues.
Local Open Scope string_scope.

Lemma for_each_teams teams :
  exists options,
    for_each (fun t => format_actor_option (TeamActor t)) teams = Ok options
    /\ length options = length teams.
Proof.
  induction teams as [|t teams (options & IH & Hlen)].
  - exists []. auto.
  - eexists. cbn [for_each]. rewrite IH. simpl. split; [reflexivity|].
    simpl. now rewrite Hlen.
Qed.

Ltac open_builder :=
  unfold build_group_attachment, get_member_assignees, get_team_assignees;
  rewrite for_each_users;
  match goal with
  | |- context [for_each (fun t => format_actor_option (TeamActor t)) ?teams] =>
      let options := fresh "team_options" in
      let H := fresh "Hteams" in
      destruct (for_each_teams teams) as (options & H & _); rewrite H
  end;
  cbv zeta.

(** Without actions, with an assignee that is a user, a team or nobody,
    and for an object that is not a csp event, the builder does not raise:
    it returns an attachment. *)
Theorem plain_group_attachment_is_built site group event tags identity actions_ rules
    link_to_event cache :
  actions_ = None \/ actions_ = Some [] ->
  group_assignee site group <> Some (OtherTuple true) ->
  get_event_type (match event with Some e => event_obj e | None => group_obj group end)
  <> "csp" ->
  exists attachment,
    fst (build_group_attachment site group event tags identity actions_ rules
           link_to_event cache)
    = Ok attachment.
Proof.
  intros Hactions Hassignee Hcsp.
  assert (Htitle : exists built,
             build_attachment_title
               (match event with Some e => event_obj e | None => group_obj group end)
             = Ok built).
  { destruct (build_attachment_title _) as [built|e] eqn:E; [eauto|].
    assert (H : exists e', build_attachment_title
                             (match event with
                              | Some e0 => event_obj e0
                              | None => group_obj group
                              end) = Err e') by eauto.
    apply build_attachment_title_raises in H as [H _]. contradiction. }
  destruct Htitle as [built Hbuilt].
  open_builder.
  assert (Hget : exists assignee, get_assignee site group = Ok assignee).
  { unfold get_assignee.
    destruct (group_assignee site group) as [[[t|]|[u|]|[]]|]; simpl; eauto.
    contradiction. }
  destruct Hget as [assignee ->].
  replace (match actions_ with Some l => l | None => [] end) with (@nil MessageAction)
    by (destruct Hactions as [->| ->]; reflexivity).
  destruct (cache_get cache _) as [h|]; [|destruct (release_exists site _)];
    rewrite Hbuilt; simpl; eauto.
Qed.

Ltac run_builder :=
  match goal with
  | |- context [build_group_attachment ?site ?group ?event ?tags ?identity ?acts
                  ?rules ?link ?cache] =>
      open_builder;
      change ("has_releases:2:"
              ++ str_int (project_pk (get_from_cache site (project_id group))))
        with (releases_key site group);
      destruct (get_assignee site group) as [?assignee|?e] eqn:?Hassignee;
      [ destruct (cache_get cache (releases_key site group)) as [?h|] eqn:?Hhit;
        [|destruct (release_exists site
                      (project_pk (get_from_cache site (project_id group))))
            eqn:?Hreleases];
        try (is_var acts; destruct acts as [[|?a ?more]|]);
        cbv beta iota;
        try (destruct (for_each (build_action_text _ _ _) _) as [?texts|?e] eqn:?Htexts);
        try (destruct (build_attachment_title _) as [?built|?e] eqn:?Htitle)
      |]
  end;
  cbn [fst snd].

(** ** The cache of releases *)

Lemma get_assignee_ok site group :
  group_assignee site group <> Some (OtherTuple true) ->
  exists assignee, get_assignee site group = Ok assignee.
Proof.
  intros H. unfold get_assignee.
  destruct (group_assignee site group) as [[[t|]|[u|]|[]]|]; simpl; eauto.
  contradiction.
Qed.

(** Once the assignee is found out, the builder leaves the cache so: on a
    hit it is unchanged; on a miss it holds, under the key of the project,
    what the table of releases says, for 3600 seconds if there are releases
    and for 60 if not, and is unchanged under every other key.  This is so
    also when the builder raises later on. *)
Theorem releases_lookup_is_cached site group event tags identity actions_ rules
    link_to_event cache :
  group_assignee site group <> Some (OtherTuple true) ->
  let cache' := snd (build_group_attachment site group event tags identity actions_ rules
                       link_to_event cache) in
  let pk := project_pk (get_from_cache site (project_id group)) in
  (forall h, cache_get cache (releases_key site group) = Some h -> cache' = cache)
  /\ (cache_get cache (releases_key site group) = None ->
      cache' (releases_key site group)
      = Some (release_exists site pk, if release_exists site pk then 3600%Z else 60%Z)
      /\ forall key, key <> releases_key site group -> cache' key = cache key)
  /\ cache_get cache' (releases_key site group) <> None.
Proof.
  intros Hother cache' pk. subst cache' pk.
  destruct (get_assignee_ok site group Hother) as [assignee0 Hget].
  run_builder; try congruence.
  all: repeat split; try discriminate; try congruence; intros.
  all: unfold cache_get, cache_set; rewrite ?String.eqb_refl; simpl;
    try discriminate; try reflexivity.
  all: try (match goal with
            | H : ?key <> _ |- _ => apply String.eqb_neq in H; now rewrite H
            end).
  all: try (unfold cache_get in *; destruct (cache _); simpl in *; congruence).
Qed.

(** On a cache hit the table of releases is not consulted: the builder
    gives the same result and the same cache whatever the table says. *)
Theorem cached_releases_are_trusted site table group event tags identity actions_ rules
    link_to_event cache h :
  cache_get cache (releases_key site group) = Some h ->
  build_group_attachment (with_release_exists site table) group event tags identity
    actions_ rules link_to_event cache
  = build_group_attachment site group event tags identity actions_ rules link_to_event
      cache.
Proof.
  intros Hhit.
  unfold build_group_attachment.
  change (get_assignee (with_release_exists site table) group)
    with (get_assignee site group).
  cbn [with_release_exists absolute_uri get_asset_url member_users group_assignee
       get_from_cache release_exists get_standardized_key get_tag_value_label
       to_timestamp from_actor_identifier slack_identity].
  change ("has_releases:2:" ++ str_int (project_pk (get_from_cache site (project_id group))))
    with (releases_key site group).
  rewrite Hhit.
  destruct (get_member_assignees _); [|reflexivity].
  destruct (get_team_assignees _); [|reflexivity].
  destruct (get_assignee site group); [|reflexivity].
  assert (Hfields : forall ts es, tag_fields (with_release_exists site table) ts es
                                  = tag_fields site ts es).
  { intros ts es. induction es as [|[k v] es IH]; simpl; [reflexivity|].
    now rewrite IH. }
  assert (Hurl : forall r g pr, build_rule_url (with_release_exists site table) r g pr
                                = build_rule_url site r g pr) by reflexivity.
  destruct tags as [[|t more]|]; rewrite ?Hfields; reflexivity.
Qed.

(** ** Buttons, texts and fields *)

(** With actions, a built attachment has the color of actioned issues and
    no buttons, and its text is the text of the issue, then a line break,
    then the non-empty texts of the actions, one per line. *)
Theorem actioned_attachment_has_no_buttons site group event tags identity a more rules
    link_to_event cache attachment :
  fst (build_group_attachment site group event tags identity (Some (a :: more)) rules
         link_to_event cache)
  = Ok attachment ->
  color attachment = ACTIONED_ISSUE_COLOR
  /\ actions attachment = []
  /\ exists texts,
       for_each (build_action_text (from_actor_identifier site) (slack_identity site)
                   identity) (a :: more) = Ok texts
       /\ Forall (fun t => t <> "") (truthy_texts texts)
       /\ text_ attachment
          = match build_attachment_text (group_obj group) (option_map event_obj event) with
            | Some t => t
            | None => ""
            end ++ newline ++ String.concat newline (truthy_texts texts).
Proof.
  run_builder; try discriminate.
  all: intros [= <-]; cbn [color actions text_]; repeat split.
  all: eexists; split; [reflexivity|split; [|reflexivity]].
  all: match goal with |- Forall _ (truthy_texts ?l) => generalize l end.
  all: intros l; induction l as [|[[|c t]|] l IH]; simpl; auto;
    constructor; [discriminate|assumption].
Qed.

(** Without actions, a built attachment has three actions: the resolve
    button, the ignore button and the assignee select.  A resolved issue
    offers Unresolve; otherwise the resolve dialog is offered when the
    project has releases (as the cache now says) and a plain Resolve when
    it has none.  An ignored issue offers Stop Ignoring, any other Ignore. *)
Theorem plain_attachment_buttons site group event tags identity actions_ rules
    link_to_event cache attachment :
  actions_ = None \/ actions_ = Some [] ->
  fst (build_group_attachment site group event tags identity actions_ rules
         link_to_event cache)
  = Ok attachment ->
  exists resolve ignore assignee groups has_releases,
    actions attachment
    = [ButtonAction resolve; ButtonAction ignore;
       SelectAction "assign" "Select Assignee..." "select" [assignee] groups]
    /\ get_assignee site group = Ok assignee
    /\ cache_get (snd (build_group_attachment site group event tags identity actions_ rules
                         link_to_event cache)) (releases_key site group)
       = Some has_releases
    /\ button_type resolve = "button" /\ button_type ignore = "button"
    /\ (button_name resolve, button_value resolve, button_text resolve)
       = match get_status group, has_releases with
         | RESOLVED, _ => ("status", "unresolved", "Unresolve")
         | _, true => ("resolve_dialog", "resolve_dialog", "Resolve...")
         | _, false => ("status", "resolved", "Resolve")
         end
    /\ (button_name ignore, button_value ignore, button_text ignore)
       = match get_status group with
         | IGNORED => ("status", "unresolved", "Stop Ignoring")
         | _ => ("status", "ignored", "Ignore")
         end.
Proof.
  intros Hactions.
  run_builder; try discriminate;
    try (destruct Hactions as [Hactions|Hactions]; discriminate Hactions).
  all: intros [= <-]; cbn [actions].
  all: do 5 eexists; split; [reflexivity|].
  all: split; [reflexivity|].
  all: split;
    [unfold cache_get, cache_set; rewrite ?String.eqb_refl; simpl; eassumption || reflexivity|].
  all: destruct (get_status group);
    repeat match goal with b : bool |- _ => destruct b end; repeat split.
Qed.

Lemma tag_fields_sound site tags event_tags_ f :
  In f (tag_fields site tags event_tags_) ->
  short f = true
  /\ mem (field_title f) tags = true
  /\ exists key value_,
       In (key, value_) event_tags_
       /\ field_title f = get_standardized_key site key
       /\ field_value f = get_tag_value_label site key value_.
Proof.
  induction event_tags_ as [|[key value_] rest IH]; simpl; [contradiction|].
  destruct (mem (get_standardized_key site key) tags) eqn:Hmem.
  - intros [<-|Hin].
    + simpl. repeat split; auto. exists key, value_. auto.
    + destruct (IH Hin) as (Hs & Hm & k & v & Hk & Ht & Hv).
      repeat split; auto. exists k, v. auto.
  - intros Hin. destruct (IH Hin) as (Hs & Hm & k & v & Hk & Ht & Hv).
    repeat split; auto. exists k, v. auto.
Qed.

(** Every field of a built attachment shows a tag of the event (the given
    one, else the latest of the group) whose standardized key is among the
    tags asked for; without tags asked for, or without such an event, there
    are no fields. *)
Theorem attachment_fields_are_requested_tags site group event tags identity actions_ rules
    link_to_event cache attachment f :
  fst (build_group_attachment site group event tags identity actions_ rules
         link_to_event cache)
  = Ok attachment ->
  In f (fields attachment) ->
  short f = true
  /\ exists asked e key value_,
       tags = Some asked
       /\ mem (field_title f) asked = true
       /\ match event with Some e' => Some e' | None => get_latest_event group end = Some e
       /\ In (key, value_) (event_tags e)
       /\ field_title f = get_standardized_key site key
       /\ field_value f = get_tag_value_label site key value_.
Proof.
  run_builder; try discriminate.
  all: intros [= <-]; cbn [fields].
  all: destruct tags as [[|t more']|]; try contradiction.
  all: intros Hin; apply tag_fields_sound in Hin
         as (Hs & Hm & key & value_ & Hk & Ht & Hv).
  all: split; [assumption|].
  all: destruct (match event with Some e' => Some e' | None => get_latest_event group end)
         as [e0|] eqn:He; [|contradiction].
  all: exists (t :: more'), e0, key, value_; repeat split; auto.
Qed.

End IssueFacts.

(** * Instances of [build_group_attachment] *)

Example plain_example_parts :
  map (fun f => (Issues.field_title f, Issues.field_value f)) (Issues.fields Issues.plain_example)
  = [("level", "warning"); ("browser", "Firefox")]
  /\ Issues.color Issues.plain_example = "#FFC227"
  /\ Issues.footer Issues.plain_example = "BACKEND-1A"
  /\ Issues.title_ Issues.plain_example = "ValueError"
  /\ Issues.text_ Issues.plain_example = "bad input"
  /\ Issues.fallback Issues.plain_example = "[backend] ValueError: bad input".
Proof. repeat split. Qed.

Example actioned_example_parts :
  Issues.text_ Issues.actioned_example
  = ("bad input" ++ Issues.newline ++ "*Issue resolved by <@U2147483697>*")%string
  /\ Issues.ts Issues.actioned_example = inject_Z 1700000300.
Proof. split; reflexivity. Qed.

Lemma plain_group_attachment_is_built_witness :
  exists attachment,
    fst (Issues.build_group_attachment Issues.example_site Issues.example_group None
           (Some ["browser"; "level"]) None None None false Issues.empty_cache)
    = Messages.Ok attachment.
Proof.
  apply (plain_group_attachment_is_built Issues.example_site Issues.example_group None
           (Some ["browser"; "level"]) None None None false Issues.empty_cache);
    [now left | discriminate | discriminate].
Defined.

Lemma releases_lookup_is_cached_witness :
  Issues.cache_get
    (snd (Issues.build_group_attachment Issues.example_site Issues.example_group None
            (Some ["browser"; "level"]) None None None false Issues.empty_cache))
    (Issues.releases_key Issues.example_site Issues.example_group)
  <> None.
Proof.
  apply (releases_lookup_is_cached Issues.example_site Issues.example_group None
           (Some ["browser"; "level"]) None None None false Issues.empty_cache).
  discriminate.
Defined.

Lemma cached_releases_are_trusted_witness :
  Issues.build_group_attachment
    (Issues.with_release_exists Issues.example_site (fun _ => false))
    Issues.example_group None None None None None false
    (Issues.cache_set Issues.empty_cache "has_releases:2:5" true 3600)
  = Issues.build_group_attachment Issues.example_site Issues.example_group None None None
      None None false (Issues.cache_set Issues.empty_cache "has_releases:2:5" true 3600).
Proof.
  apply (cached_releases_are_trusted Issues.example_site (fun _ => false)
           Issues.example_group None None None None None false
           (Issues.cache_set Issues.empty_cache "has_releases:2:5" true 3600) true).
  reflexivity.
Defined.

Lemma actioned_attachment_has_no_buttons_witness :
  Issues.color Issues.actioned_example = Messages.ACTIONED_ISSUE_COLOR
  /\ Issues.actions Issues.actioned_example = [].
Proof.
  destruct (actioned_attachment_has_no_buttons Issues.example_site Issues.example_group
              (Some Issues.example_event) None (Some Issues.example_identity)
              Issues.resolve_action [] None false Issues.empty_cache
              Issues.actioned_example eq_refl)
    as (Hcolor & Hactions & _).
  split; assumption.
Defined.

Lemma plain_attachment_buttons_witness :
  exists resolve ignore assignee groups has_releases,
    Issues.actions Issues.plain_example
    = [Issues.ButtonAction resolve; Issues.ButtonAction ignore;
       Issues.SelectAction "assign" "Select Assignee..." "select" [assignee] groups]
    /\ Issues.get_assignee Issues.example_site Issues.example_group = Messages.Ok assignee
    /\ Issues.cache_get
         (snd (Issues.build_group_attachment Issues.example_site Issues.example_group None
                 (Some ["browser"; "level"]) None None None false Issues.empty_cache))
         (Issues.releases_key Issues.example_site Issues.example_group)
       = Some has_releases
    /\ Issues.button_type resolve = "button" /\ Issues.button_type ignore = "button"
    /\ (Issues.button_name resolve, Issues.button_value resolve, Issues.button_text resolve)
       = match Issues.get_status Issues.example_group, has_releases with
         | Issues.RESOLVED, _ => ("status", "unresolved", "Unresolve")
         | _, true => ("resolve_dialog", "resolve_dialog", "Resolve...")
         | _, false => ("status", "resolved", "Resolve")
         end
    /\ (Issues.button_name ignore, Issues.button_value ignore, Issues.button_text ignore)
       = match Issues.get_status Issues.example_group with
         | Issues.IGNORED => ("status", "unresolved", "Stop Ignoring")
         | _ => ("status", "ignored", "Ignore")
         end.
Proof.
  apply (plain_attachment_buttons Issues.example_site Issues.example_group None
           (Some ["browser"; "level"]) None None None false Issues.empty_cache
           Issues.plain_example);
    [now left | reflexivity].
Defined.

Lemma attachment_fields_are_requested_tags_witness :
  Issues.short {| Issues.field_title := "browser"; Issues.field_value := "Firefox";
                  Issues.short := true |} = true
  /\ exists asked e key value_,
       Some ["browser"; "level"] = Some asked
       /\ Issues.mem "browser" asked = true
       /\ Issues.get_latest_event Issues.example_group = Some e
       /\ In (key, value_) (Issues.event_tags e)
       /\ "browser" = Issues.get_standardized_key Issues.example_site key
       /\ "Firefox" = Issues.get_tag_value_label Issues.example_site key value_.
Proof.
  apply (attachment_fields_are_requested_tags Issues.example_site Issues.example_group None
           (Some ["browser"; "level"]) None None None false Issues.empty_cache
           Issues.plain_example
           {| Issues.field_title := "browser"; Issues.field_value := "Firefox";
              Issues.short := true |});
    [reflexivity | right; left; reflexivity].
Defined.
